(** * Submission-structure checker: a shallow embedding of [check.py]

    The script walks over the archives named on the command line, extracts
    each one into a scratch directory and prints diagnostics about
    [classification.json] and the segmentation patches.  The embedding keeps
    the control flow of the script (flags, [continue], [try]/[except]) and
    replaces the outside world by explicit inputs:

    - the file system is a tree of nodes; a file is known by what
      [json.load] and [PIL.Image.open] return on it;
    - printing appends a structured message to the output; a line that
      holds a key of the JSON text as it is can fail to be written;
    - an exception that no handler of the script catches ends the process;
    - the iteration order of a Python [set] of strings depends on the
      per-process string hash, so it is an input of its own. *)

From Stdlib Require Import List String Ascii ZArith QArith Bool Lia.
From Stdlib Require Import Permutation Sorted DecimalString.
Import ListNotations.

Set Warnings "-register-all".

Local Open Scope string_scope.
Local Open Scope list_scope.
Local Open Scope Z_scope.

(** ** Python values *)

(** A [float]: the exact value of a finite double, or one of the special
    values that [json.load] accepts ([NaN], [Infinity], [-Infinity]). *)
Inductive pyfloat : Type :=
| Finite (q : Q)
| NaN
| PosInf
| NegInf.

(** What [json.load] can return. *)
Inductive value : Type :=
| VNone
| VBool (b : bool)
| VInt (n : Z)
| VFloat (x : pyfloat)
| VStr (s : string)
| VList (l : list value)
| VDict (d : list (string * value)).

(** [type(v)] *)
Inductive pytype : Type :=
| TNoneType | TBool | TInt | TFloat | TStr | TList | TDict.

Definition type_of (v : value) : pytype :=
  match v with
  | VNone => TNoneType
  | VBool _ => TBool
  | VInt _ => TInt
  | VFloat _ => TFloat
  | VStr _ => TStr
  | VList _ => TList
  | VDict _ => TDict
  end.

(** [isinstance(v, float)] *)
Definition isinstance_float (v : value) : bool :=
  match v with VFloat _ => true | _ => false end.

(** [isinstance(v, int)]: [bool] is a subclass of [int]. *)
Definition isinstance_int (v : value) : bool :=
  match v with VInt _ | VBool _ => true | _ => false end.

(** The numeric reading of a value, as the comparison operators use it:
    [True] is [1] and [False] is [0]. *)
Inductive number : Type :=
| NInt (n : Z)
| NFloat (x : pyfloat).

Definition as_number (v : value) : option number :=
  match v with
  | VBool b => Some (NInt (Z.b2z b))
  | VInt n => Some (NInt n)
  | VFloat x => Some (NFloat x)
  | _ => None
  end.

(** [x < 0] *)
Definition lt_zero (x : number) : bool :=
  match x with
  | NInt n => n <? 0
  | NFloat (Finite q) => negb (Qle_bool 0 q)
  | NFloat NegInf => true
  | NFloat NaN | NFloat PosInf => false
  end.

(** [x > 1] *)
Definition gt_one (x : number) : bool :=
  match x with
  | NInt n => 1 <? n
  | NFloat (Finite q) => negb (Qle_bool q 1)
  | NFloat PosInf => true
  | NFloat NaN | NFloat NegInf => false
  end.

(** ** Exceptions and results *)

Inductive exn : Type :=
| BadZipFile
| UnicodeDecodeError
| UnicodeEncodeError
| JSONDecodeError
| AttributeError
| FileNotFoundError
| KeyError
| TypeError
| ValueError
| PermissionError
| UnidentifiedImageError
| IsADirectoryError
| OSError
| ZlibError
| RuntimeError.

Inductive result (A : Type) : Type :=
| Ok (a : A)
| Err (e : exn).
Arguments Ok {A} a.
Arguments Err {A} e.

(** ** Text that the console can take

    A Python [str] is held as the UTF-8 form of its code points.  JSON text
    can name any code point in a key, a lone surrogate included
    ([json.load] accepts it), and [print] cannot write such a code point:
    it raises [UnicodeEncodeError].  A surrogate is held here in the same
    three-byte layout as its neighbours, which starts with the byte 237
    followed by a byte of at least 160. *)

(** [s.encode()] succeeds: no code point of [s] is a surrogate. *)
Fixpoint encodable (s : string) : bool :=
  match s with
  | EmptyString => true
  | String c s' =>
      match s' with
      | EmptyString => true
      | String c' _ =>
          negb ((nat_of_ascii c =? 237)%nat && (160 <=? nat_of_ascii c')%nat)
          && encodable s'
      end
  end.

(** ** Dictionaries and sets *)

(** A [dict] with string keys, in insertion order. *)
Definition dict (A : Type) : Type := list (string * A).

Fixpoint dict_get {A : Type} (d : dict A) (k : string) : option A :=
  match d with
  | [] => None
  | (k', v) :: d' => if String.eqb k' k then Some v else dict_get d' k
  end.

Definition dict_keys {A : Type} (d : dict A) : list string := map fst d.
Definition dict_values {A : Type} (d : dict A) : list A := map snd d.

(** A [set] of strings: its elements, without repetition. *)
Definition pyset : Type := list string.

Definition mem (x : string) (s : list string) : bool :=
  existsb (String.eqb x) s.

(** [set(l)] *)
Definition set_of (l : list string) : pyset := nodup string_dec l.

(** [a.difference(b)] *)
Definition difference (a : pyset) (b : list string) : pyset :=
  filter (fun x => negb (mem x b)) a.

(** The order in which a set of strings is iterated is fixed by the string
    hash of the running process, which Python draws afresh at start-up.  It
    is represented by a comparison on strings: a set is iterated in the
    order that inserting its elements one by one with that comparison
    yields.  Whatever the comparison is, the result holds the same elements
    with the same multiplicity. *)
Definition hash_seed : Type := string -> string -> bool.

Fixpoint place (seed : hash_seed) (x : string) (l : list string) : list string :=
  match l with
  | [] => [x]
  | y :: l' => if seed x y then x :: y :: l' else y :: place seed x l'
  end.

(** [list(s)], and the order of [for x in s] *)
Fixpoint iterate (seed : hash_seed) (s : pyset) : list string :=
  match s with
  | [] => []
  | x :: s' => place seed x (iterate seed s')
  end.

(** Truth value of a container *)
Definition nonempty {A : Type} (l : list A) : bool :=
  match l with [] => false | _ => true end.

(** ** Images *)

(** The [dtype] of [np.asarray(PIL.Image.open(p))] for the pixel modes
    with integer samples; images with floating-point samples are left out
    of the model. *)
Inductive dtype : Type := uint8 | uint16 | int32 | bool_.

Definition dtype_eqb (a b : dtype) : bool :=
  match a, b with
  | uint8, uint8 | uint16, uint16 | int32, int32 | bool_, bool_ => true
  | _, _ => false
  end.

(** An array: its element type, its shape and its elements in row-major
    order ([False] and [True] of a [bool_] array as 0 and 1). *)
Record ndarray : Type := {
  arr_dtype : dtype;
  arr_shape : list Z;
  arr_pixels : list Z
}.

Fixpoint insert_unique (x : Z) (l : list Z) : list Z :=
  match l with
  | [] => [x]
  | y :: l' =>
      if x <? y then x :: y :: l'
      else if x =? y then y :: l'
      else y :: insert_unique x l'
  end.

(** [np.unique(a)]: the sorted distinct elements *)
Definition np_unique (a : ndarray) : list Z :=
  fold_right insert_unique [] (arr_pixels a).

(** [set(u).difference(cs)] on integers.  The hash of an integer does not
    change from run to run, so the order in which the script lists such a
    set is the same in every run; it is the order of the slots of the set,
    which is not modelled: the elements are kept here in the order of [u],
    and the properties below speak of the listed values up to their
    order. *)
Definition difference_Z (u cs : list Z) : list Z :=
  filter (fun v => negb (existsb (Z.eqb v) cs)) u.

Fixpoint shape_eqb (a b : list Z) : bool :=
  match a, b with
  | [], [] => true
  | x :: a', y :: b' => (x =? y) && shape_eqb a' b'
  | _, _ => false
  end.

(** ** The file system *)

(** A regular file, by what the two readers of the script make of it. *)
Record file : Type := {
  json_load : result value;
  image_open : result ndarray
}.

Inductive node : Type :=
| File (f : file)
| Dir (entries : list (string * node)).

Definition directory : Type := list (string * node).

(** [d / name] *)
Definition child (d : directory) (name : string) : option node :=
  dict_get d name.

Definition is_file (p : option node) : bool :=
  match p with Some (File _) => true | _ => false end.

Definition is_dir (p : option node) : bool :=
  match p with Some (Dir _) => true | _ => false end.

(** [name] matches the pattern [*.png] *)
Definition is_png (name : string) : bool :=
  let n := String.length name in
  (4 <=? n)%nat && String.eqb (substring (n - 4) 4 name) ".png".

(** [p.glob("*.png")]: the matching entries of a directory, in the order
    the file system lists them; nothing for a path that is no directory. *)
Definition glob_png (p : option node) : list (string * node) :=
  match p with
  | Some (Dir entries) => filter (fun e => is_png (fst e)) entries
  | _ => []
  end.

(** [np.asarray(PIL.Image.open(p))] *)
Definition open_image (n : node) : result ndarray :=
  match n with
  | File f => image_open f
  | Dir _ => Err IsADirectoryError
  end.

(** What lies at a path given on the command line: nothing that is a
    regular file, or a regular file, known by what [ZipFile(p, "r")] and
    [extractall] do on it: they deliver the extracted tree or raise.  A
    file that is no ZIP container raises [BadZipFile]; a container that is
    damaged further in raises other exceptions: [zlib.error] on a damaged
    compressed stream, [UnicodeDecodeError] on an entry name that is no
    UTF-8, [OSError] on missing member data. *)
Inductive path_state : Type :=
| NoFile
| Archive (extractall : result directory).

(** [expected_patches.json] as [open] and [json.load] deliver it: a
    dictionary from the case number, written in decimal, to the list of the
    file names expected for the case. *)
Definition manifest : Type := result (dict (list string)).

(** ** Output *)

(** One constructor per [print] of the script, with the values its format
    string interpolates; each line starts with a tab, its tag and a tab.

    - line 12: Checking archive: PATH
    - line 17: ERROR: The archive could not be found. ...
    - line 27: ERROR: This ZIP file is corrupted and cannot be opened.
    - line 37: ERROR: classification.json is missing.
    - line 40: ERROR: classification.json is a directory.
    - line 48: ERROR: classification.json contains invalid unicode characters.
    - line 52: ERROR: classification.json is not a valid JSON file. ...
    - line 70: ERROR: classification.json is missing the following keys LIST
    - line 75: WARNING: classification.json contains the following
      unexpected keys LIST
    - line 83: ERROR: In classification.json, key KEY has a value of type
      TYPE (instead of float).
    - line 87: WARNING: In classification.json, key KEY has a float value
      (VALUE) not in range [0, 1].
    - line 98: ERROR: Unexpected error when computing the AUC EXCEPTION
    - line 102: SUCCESS: classification.json is valid!
    - line 120: WARNING: Folder for case CASE is missing.
    - line 123: ERROR: Folder for case CASE is a file.
    - line 132: ERROR: CASE is missing the following patches [LIST]
    - line 137: WARNING: CASE contains the following unexpected patches LIST
    - line 148: ERROR: NAME has dtype DTYPE (instead of uint8).
    - line 151: ERROR: NAME has shape SHAPE (instead of (3000, 3000)).
    - line 155: WARNING: NAME contains unexpected classes LIST
    - line 158: ERROR: NAME is not a valid PNG file.
    - line 162: SUCCESS: No errors in the segmentations files!
    - line 165: SUCCESS: The submission is completely valid! *)
Inductive msg : Type :=
| Checking (archive_path : string)                       (* 12 *)
| ArchiveNotFound                                        (* 17 *)
| CorruptedZip                                           (* 27 *)
| ClassificationMissing                                  (* 37 *)
| ClassificationIsDirectory                              (* 40 *)
| InvalidUnicode                                         (* 48 *)
| InvalidJSON                                            (* 52 *)
| MissingKeys (keys : list string)                       (* 70 *)
| UnexpectedKeys (keys : list string)                    (* 75 *)
| ValueNotFloat (key : string) (ty : pytype)             (* 83 *)
| ValueNotInRange (key : string) (v : value)             (* 87 *)
| AUCError (e : exn)                                     (* 98 *)
| ClassificationValid                                    (* 102 *)
| CaseFolderMissing (case_str : string)                  (* 120 *)
| CaseFolderIsFile (case_str : string)                   (* 123 *)
| MissingPatches (case_str : string) (listed : list string)     (* 132 *)
| UnexpectedPatches (case_str : string) (listed : list string)  (* 137 *)
| PatchDtype (name : string) (found : dtype)             (* 148 *)
| PatchShape (name : string) (found : list Z)            (* 151 *)
| PatchClasses (name : string) (classes : list Z)        (* 155 *)
| PatchInvalid (name : string)                           (* 158 *)
| SegmentationValid                                      (* 162 *)
| SubmissionValid.                                       (* 165 *)

(** The tag each printed line starts with; the line that announces an
    archive has none. *)
Inductive severity : Type := ERROR | WARNING | SUCCESS | NOTAG.

Definition severity_of (m : msg) : severity :=
  match m with
  | Checking _ => NOTAG
  | ArchiveNotFound | CorruptedZip
  | ClassificationMissing | ClassificationIsDirectory
  | InvalidUnicode | InvalidJSON
  | MissingKeys _ | ValueNotFloat _ _ | AUCError _
  | CaseFolderIsFile _ | MissingPatches _ _
  | PatchDtype _ _ | PatchShape _ _ | PatchInvalid _ => ERROR
  | UnexpectedKeys _ | ValueNotInRange _ _
  | CaseFolderMissing _ | UnexpectedPatches _ _ | PatchClasses _ _ => WARNING
  | ClassificationValid | SegmentationValid | SubmissionValid => SUCCESS
  end.

Definition is_error (m : msg) : bool :=
  match severity_of m with ERROR => true | _ => false end.

Definition is_warning (m : msg) : bool :=
  match severity_of m with WARNING => true | _ => false end.

(** A finding: a line tagged [ERROR] or [WARNING]. *)
Definition is_finding (m : msg) : bool := is_error m || is_warning m.

(** ** Printing and raising *)

(** A computation prints lines and then either returns or raises. *)
Definition io (A : Type) : Type := list msg * result A.

Definition ret {A : Type} (a : A) : io A := ([], Ok a).
Definition print (m : msg) : io unit := ([m], Ok tt).
Definition raise {A : Type} (e : exn) : io A := ([], Err e).

(** [print] of a line whose text holds the key [s] of the JSON text as it
    is, not its [repr] (lines 83 and 87).  The other strings that a line
    holds as they are, paths of the command line and names of extracted
    files, are taken to be encodable. *)
Definition print_with (s : string) (m : msg) : io unit :=
  if encodable s then print m else raise UnicodeEncodeError.

Definition bind {A B : Type} (c : io A) (k : A -> io B) : io B :=
  match c with
  | (out, Ok a) => let (out', r) := k a in (out ++ out', r)
  | (out, Err e) => (out, Err e)
  end.

Notation "x <- c ;; k" := (bind c (fun x => k))
  (at level 61, c at next level, right associativity).
Notation "c ;; k" := (bind c (fun _ => k))
  (at level 61, right associativity).

Definition output {A : Type} (c : io A) : list msg := fst c.
Definition outcome {A : Type} (c : io A) : result A := snd c.

(** [for x in xs: body], threading the variables the body assigns. *)
Fixpoint for_each {A S : Type} (xs : list A) (body : A -> S -> io S) (s : S)
  : io S :=
  match xs with
  | [] => ret s
  | x :: xs' => s' <- body x s ;; for_each xs' body s'
  end.

(** [if c: print(m); flag = True] *)
Definition report_if (c : bool) (m : msg) (flag : bool) : io bool :=
  if c then print m ;; ret true else ret flag.

(** ** [sklearn.metrics.roc_auc_score]

    The library function, by its documented behaviour on a vector of labels
    and a vector of scores: a [ValueError] when the two lengths differ, when
    a score is no finite number, or when the labels do not show exactly two
    classes; otherwise the area under the ROC curve, which is the share of
    (positive, negative) pairs that the scores order rightly, a tie counting
    for one half.  What the function does on labels of one class depends on
    its release (older ones raise, later ones warn and return nan); the
    script calls it on labels of two classes only. *)

Definition score_of (v : value) : option Q :=
  match as_number v with
  | Some (NInt n) => Some (inject_Z n)
  | Some (NFloat (Finite q)) => Some q
  | _ => None
  end.

Fixpoint scores_of (l : list value) : option (list Q) :=
  match l with
  | [] => Some []
  | v :: l' =>
      match score_of v, scores_of l' with
      | Some q, Some qs => Some (q :: qs)
      | _, _ => None
      end
  end.

Definition pair_credit (p n : Q) : Q :=
  if Qeq_bool p n then (1 # 2)%Q
  else if Qle_bool n p then 1%Q
  else 0%Q.

Definition Qsum (l : list Q) : Q := fold_right Qplus 0%Q l.

(** The scores of the samples labelled [c] *)
Fixpoint select (c : Z) (y_true : list Z) (scores : list Q) : list Q :=
  match y_true, scores with
  | y :: ys, s :: ss => if y =? c then s :: select c ys ss else select c ys ss
  | _, _ => []
  end.

Definition roc_auc_score (y_true : list Z) (y_score : list value) : result Q :=
  if negb (List.length y_true =? List.length y_score)%nat then Err ValueError
  else
    match scores_of y_score with
    | None => Err ValueError
    | Some scores =>
        match fold_right insert_unique [] y_true with
        | [c0; c1] =>
            let neg := select c0 y_true scores in
            let pos := select c1 y_true scores in
            Ok (Qsum (flat_map (fun p => map (pair_credit p) neg) pos)
                / inject_Z (Z.of_nat (List.length pos * List.length neg)))%Q
        | _ => Err ValueError
        end
    end.

(** ** The classification check (lines 31 to 102) *)

Definition expected_keys : pyset :=
  [ "FoSJZXMf"; "QWbE525I"; "rXnHCUvh"; "QgiI3ZjZ"; "mEbHuWpr"; "QALoeYtI";
    "ekSUm2cR"; "IWHbSh5u"; "nDEUHXwj"; "JMo8YkLs"; "DsRY1rxV"; "eRLJEqUc";
    "I5eHKnl9"; "TE4z9RQi"; "pijPwLr3"; "JEKP6PPk"; "VkwcFVCj"; "gXwu1b4V";
    "OuM2aSiS"; "2pT4GFzn"; "9jNhMVzm"; "Jf22jnO2"; "DZVCFC0G"; "yUTVZuRr";
    "XS7iESy5"; "ABLVABMT"; "usRRkq2C"; "J9cGjQjN"; "DokmCXM1"; "tUw6bIr8";
    "VcspD4KF"; "ft5ALWqc"; "4Hjkjs0i"; "9bwsptDH"; "AlTjYbsA"; "tJgvMquY";
    "x2cYOIty"; "NUYZ3vYd"; "F62qzus2"; "BHTUesDo" ].

(** The body of the loop over [keys_found] (lines 81 to 89).  Both lines
    hold the key as it is. *)
Definition check_value (predictions : dict value) (key : string)
    (any_classification_error : bool) : io bool :=
  match dict_get predictions key with
  | None => raise KeyError
  | Some value =>
      if negb (isinstance_float value) && negb (isinstance_int value) then
        print_with key (ValueNotFloat key (type_of value)) ;; ret true
      else
        match as_number value with
        | None => raise TypeError
        | Some x =>
            if lt_zero x || gt_one x then
              print_with key (ValueNotInRange key value) ;; ret true
            else ret any_classification_error
        end
  end.

(** [[1] + [0] * (n - 1)] *)
Definition dummy_gt (n : nat) : list Z := 1 :: repeat 0 (n - 1).

(** The test of line 92 *)
Definition auc_guard (predictions : dict value)
    (any_classification_error : bool) : bool :=
  (2 <? List.length predictions)%nat && negb any_classification_error.

(** The function that line 96 calls: labels and scores to an area, or an
    exception. *)
Definition metric : Type := list Z -> list value -> result Q.

(** The sanity computation (lines 92 to 99), for the function that
    [roc_auc_score] names. *)
Definition check_auc (roc_auc_score : metric) (predictions : dict value)
    (any_classification_error : bool) : io bool :=
  if auc_guard predictions any_classification_error then
    match roc_auc_score (dummy_gt (List.length predictions))
                        (dict_values predictions) with
    | Ok _ => ret any_classification_error
    | Err e => print (AUCError e) ;; ret true
    end
  else ret any_classification_error.

(** The checks of the keys and of the values (lines 58 to 89). *)
Definition check_keys_and_values (seed : hash_seed) (predictions : dict value)
    (any_classification_error : bool) : io bool :=
  let keys_found := set_of (dict_keys predictions) in
  let missing_keys := difference expected_keys keys_found in
  e <- report_if (nonempty missing_keys)
         (MissingKeys (iterate seed missing_keys))
         any_classification_error ;;
  let unexpected_keys := difference keys_found expected_keys in
  e <- report_if (nonempty unexpected_keys)
         (UnexpectedKeys (iterate seed unexpected_keys)) e ;;
  for_each (iterate seed keys_found) (check_value predictions) e.

(** The checks on the loaded file (lines 58 to 99); [predictions.keys()]
    exists on a dictionary only. *)
Definition check_predictions (roc_auc_score : metric) (seed : hash_seed)
    (predictions : value) (any_classification_error : bool) : io bool :=
  match predictions with
  | VDict d =>
      e <- check_keys_and_values seed d any_classification_error ;;
      check_auc roc_auc_score d e
  | _ => raise AttributeError
  end.

(** Lines 32 to 99, for the function that [roc_auc_score] names: the value
    of [any_classification_error] when line 101 is reached. *)
Definition check_classification_with (roc_auc_score : metric)
    (seed : hash_seed) (tempdir : directory) : io bool :=
  let path_classification := child tempdir "classification.json" in
  if negb (is_file path_classification) then
    print ClassificationMissing ;; ret true
  else if is_dir path_classification then
    print ClassificationIsDirectory ;; ret true
  else
    match path_classification with
    | Some (File f) =>
        match json_load f with
        | Err UnicodeDecodeError => print InvalidUnicode ;; ret true
        | Err JSONDecodeError => print InvalidJSON ;; ret true
        | Err e => raise e
        | Ok predictions =>
            check_predictions roc_auc_score seed predictions false
        end
    | _ => raise FileNotFoundError
    end.

(** Lines 32 to 99 as the script runs them, with the function of the
    library. *)
Definition check_classification (seed : hash_seed) (tempdir : directory)
  : io bool :=
  check_classification_with roc_auc_score seed tempdir.

(** ** The segmentation check (lines 105 to 162) *)

Definition cases : Z := 6.

(** [range(a, b)] *)
Definition range (a b : Z) : list Z :=
  map (fun i => a + Z.of_nat i) (seq 0 (Z.to_nat (b - a))).

Definition expected_classes : list Z := range 1 11.
Definition expected_shape : list Z := [3000; 3000].

(** [str(n)] *)
Definition str (n : Z) : string := NilZero.string_of_int (Z.to_int n).

(** [f"{n:02d}"] *)
Definition format_02d (n : Z) : string :=
  let s := str n in
  if (String.length s <? 2)%nat then ("0" ++ s)%string else s.

(** The handler of line 157 *)
Definition caught_at_patch (e : exn) : bool :=
  match e with
  | PermissionError | UnidentifiedImageError => true
  | _ => false
  end.

(** The body of the loop over the patches (lines 143 to 159). *)
Definition check_patch (patch : string * node) (any_segmentation_error : bool)
  : io bool :=
  let name := fst patch in
  match open_image (snd patch) with
  | Ok array =>
      e <- report_if (negb (dtype_eqb (arr_dtype array) uint8))
             (PatchDtype name (arr_dtype array)) any_segmentation_error ;;
      e <- report_if (negb (shape_eqb (arr_shape array) expected_shape))
             (PatchShape name (arr_shape array)) e ;;
      let unexpected_classes :=
        difference_Z (np_unique array) expected_classes in
      report_if (nonempty unexpected_classes)
        (PatchClasses name unexpected_classes) e
  | Err ex =>
      if caught_at_patch ex then print (PatchInvalid name) ;; ret true
      else raise ex
  end.

(** The checks on a case folder that is there (lines 127 to 159).  The
    warning of line 137 is printed when [unexpected_patches] is not empty,
    and line 138 formats [list(missing_patches)] into it. *)
Definition check_case_folder (seed : hash_seed) (case_str : string)
    (case_path : option node) (expected : list string)
    (any_segmentation_error : bool) : io bool :=
  let expected_patches := set_of expected in
  let patches_found := set_of (map fst (glob_png case_path)) in
  let missing_patches := difference expected_patches patches_found in
  e <- report_if (nonempty missing_patches)
         (MissingPatches case_str (iterate seed missing_patches))
         any_segmentation_error ;;
  let unexpected_patches := difference patches_found expected_patches in
  e <- report_if (nonempty unexpected_patches)
         (UnexpectedPatches case_str (iterate seed missing_patches)) e ;;
  for_each (glob_png case_path) check_patch e.

(** The body of the loop over the cases (lines 116 to 159), with the tests
    of lines 119 and 122 in the order of the script. *)
Definition check_case (seed : hash_seed) (all_expected_patches : dict (list string))
    (tempdir : directory) (case : Z) (any_segmentation_error : bool) : io bool :=
  let case_str := ("wns_case_" ++ format_02d case)%string in
  let case_path := child tempdir case_str in
  if negb (is_dir case_path) then
    print (CaseFolderMissing case_str) ;; ret true
  else if is_file case_path then
    print (CaseFolderIsFile case_str) ;; ret true
  else
    match dict_get all_expected_patches (str case) with
    | None => raise KeyError
    | Some expected =>
        check_case_folder seed case_str case_path expected
          any_segmentation_error
    end.

(** Lines 106 to 159: the value of [any_segmentation_error] when line 161
    is reached. *)
Definition check_segmentation (seed : hash_seed) (expected_patches_json : manifest)
    (tempdir : directory) : io bool :=
  match expected_patches_json with
  | Err e => raise e
  | Ok all_expected_patches =>
      for_each (range 1 (1 + cases))
        (check_case seed all_expected_patches tempdir) false
  end.

(** ** One archive, and the whole run *)

(** [if not flag: print(m)] *)
Definition print_unless (flag : bool) (m : msg) : io unit :=
  if negb flag then print m else ret tt.

(** Lines 31 to 102 *)
Definition classification_part (seed : hash_seed) (tempdir : directory)
  : io bool :=
  any_classification_error <- check_classification seed tempdir ;;
  print_unless any_classification_error ClassificationValid ;;
  ret any_classification_error.

(** Lines 105 to 162 *)
Definition segmentation_part (seed : hash_seed)
    (expected_patches_json : manifest) (tempdir : directory) : io bool :=
  any_segmentation_error <-
    check_segmentation seed expected_patches_json tempdir ;;
  print_unless any_segmentation_error SegmentationValid ;;
  ret any_segmentation_error.

(** Lines 30 to 165, on the extracted archive. *)
Definition check_extracted (seed : hash_seed) (expected_patches_json : manifest)
    (tempdir : directory) : io unit :=
  any_classification_error <- classification_part seed tempdir ;;
  any_segmentation_error <-
    segmentation_part seed expected_patches_json tempdir ;;
  if negb any_classification_error && negb any_segmentation_error then
    print SubmissionValid
  else ret tt.

(** The body of the loop over [sys.argv[1:]]; both [continue]s end it. *)
Definition check_archive (seed : hash_seed) (expected_patches_json : manifest)
    (fs : string -> path_state) (archive_path : string) : io unit :=
  print (Checking archive_path) ;;
  match fs archive_path with
  | NoFile => print ArchiveNotFound
  | Archive (Err BadZipFile) => print CorruptedZip
  | Archive (Err e) => raise e
  | Archive (Ok tempdir) => check_extracted seed expected_patches_json tempdir
  end.

Definition main (seed : hash_seed) (expected_patches_json : manifest)
    (fs : string -> path_state) (argv : list string) : io unit :=
  for_each argv
    (fun archive_path _ => check_archive seed expected_patches_json fs archive_path)
    tt.

(** ** Words of the specification *)

(** A number within [0, 1], bounds included *)
Definition in_unit_interval (x : number) : Prop :=
  match x with
  | NInt n => 0 <= n <= 1
  | NFloat (Finite q) => (0 <= q)%Q /\ (q <= 1)%Q
  | NFloat _ => False
  end.

(** A value that is numeric and within [0, 1] *)
Definition valid_score (v : value) : Prop :=
  exists x, as_number v = Some x /\ in_unit_interval x.

(** A dictionary whose values are all numeric and within [0, 1] *)
Definition valid_scores (d : dict value) : Prop :=
  Forall (fun kv => valid_score (snd kv)) d.

(** A patch that decodes to an 8-bit image of 3000 by 3000 pixels, each of
    them one of the labels 1 to 10 *)
Definition valid_patch (n : node) : Prop :=
  exists a, open_image n = Ok a
            /\ arr_dtype a = uint8
            /\ arr_shape a = [3000; 3000]
            /\ Forall (fun v => 1 <= v <= 10) (arr_pixels a).

(** The folder of a case is there and its PNG files are the patches that
    the manifest expects for the case, all of them valid. *)
Definition valid_case (all_expected_patches : dict (list string))
    (tempdir : directory) (case : Z) : Prop :=
  exists entries expected,
    child tempdir ("wns_case_" ++ format_02d case)%string = Some (Dir entries)
    /\ dict_get all_expected_patches (str case) = Some expected
    /\ (forall name, In name (map fst (glob_png (Some (Dir entries))))
                     <-> In name expected)
    /\ Forall (fun e => valid_patch (snd e)) (glob_png (Some (Dir entries))).

(** [classification.json] holds exactly the expected keys, each with a
    number within [0, 1]. *)
Definition valid_classification (tempdir : directory) : Prop :=
  exists f d,
    child tempdir "classification.json" = Some (File f)
    /\ json_load f = Ok (VDict d)
    /\ Permutation (dict_keys d) expected_keys
    /\ valid_scores d.

Definition fully_valid (all_expected_patches : dict (list string))
    (tempdir : directory) : Prop :=
  valid_classification tempdir
  /\ Forall (valid_case all_expected_patches tempdir) [1; 2; 3; 4; 5; 6].

(** ** Classes of lines *)

(** The lines about one patch *)
Definition is_patch_line (m : msg) : bool :=
  match m with
  | PatchDtype _ _ | PatchShape _ _ | PatchClasses _ _ | PatchInvalid _ => true
  | _ => false
  end.

(** The lines of the segmentation check *)
Definition is_segmentation_line (m : msg) : bool :=
  match m with
  | CaseFolderMissing _ | CaseFolderIsFile _
  | MissingPatches _ _ | UnexpectedPatches _ _
  | SegmentationValid => true
  | _ => is_patch_line m
  end.

(** ** Findings and flags *)

(** A computation that carries a flag keeps to the discipline of the
    script when all it prints are findings and the flag it returns is set
    exactly when it was set before or a line was printed. *)
Definition tracks (flag : bool) (c : io bool) : Prop :=
  Forall (fun m => is_finding m = true) (output c)
  /\ forall flag', outcome c = Ok flag' -> flag' = nonempty (output c) || flag.

(** ** Outputs that differ in the order of a set only *)

(** Two lines that agree but for the order of the names listed from a
    set. *)
Definition same_line (m1 m2 : msg) : Prop :=
  match m1, m2 with
  | MissingKeys l1, MissingKeys l2 => Permutation l1 l2
  | UnexpectedKeys l1, UnexpectedKeys l2 => Permutation l1 l2
  | MissingPatches c1 l1, MissingPatches c2 l2 => c1 = c2 /\ Permutation l1 l2
  | UnexpectedPatches c1 l1, UnexpectedPatches c2 l2 =>
      c1 = c2 /\ Permutation l1 l2
  | _, _ => m1 = m2
  end.

(** The lines about the value of one key (lines 83 and 87) *)
Definition is_value_line (m : msg) : bool :=
  match m with
  | ValueNotFloat _ _ | ValueNotInRange _ _ => true
  | _ => false
  end.

(** Two outputs that agree line by line, but for the order of the names
    within a line and the order of the lines within a run of lines about
    the values of keys. *)
Inductive same_output : list msg -> list msg -> Prop :=
| same_nil : same_output [] []
| same_cons (m1 m2 : msg) (o1 o2 : list msg) :
    same_line m1 m2 -> same_output o1 o2 ->
    same_output (m1 :: o1) (m2 :: o2)
| same_block (b1 b2 o1 o2 : list msg) :
    Forall (fun m => is_value_line m = true) b1 -> Permutation b1 b2 ->
    same_output o1 o2 ->
    same_output (b1 ++ o1) (b2 ++ o2).

(** Two runs with such outputs and the same end *)
Definition same_run {A : Type} (c1 c2 : io A) : Prop :=
  same_output (output c1) (output c2) /\ outcome c1 = outcome c2.

(** The lines of the loop body for one key *)
Definition value_lines (d : dict value) (k : string) : list msg :=
  output (check_value d k false).

(** The loop body raises on the key: its line cannot be written. *)
Definition value_raises (d : dict value) (k : string) : bool :=
  match outcome (check_value d k false) with
  | Err _ => true
  | Ok _ => false
  end.

Definition not_value_line (m : msg) : bool := negb (is_value_line m).

(** Two runs with the same end that agree, but for the order that a set
    decides, on all lines that are not about the value of a key, and on
    those lines too unless the runs end in [UnicodeEncodeError]: when a
    line about a value cannot be written, the lines about values that were
    written before depend on the order of the loop. *)
Definition same_but_for_crash {A : Type} (c1 c2 : io A) : Prop :=
  outcome c1 = outcome c2
  /\ same_output (filter not_value_line (output c1))
                 (filter not_value_line (output c2))
  /\ (same_output (output c1) (output c2)
      \/ outcome c1 = Err UnicodeEncodeError).

(** ** Sample inputs *)

Definition mkfile (j : result value) (i : result ndarray) : node :=
  File {| json_load := j; image_open := i |}.

(** A JSON file that is no image *)
Definition json_file (v : value) : node :=
  mkfile (Ok v) (Err UnidentifiedImageError).

(** An image file, which is no JSON text *)
Definition png_file (a : ndarray) : node :=
  mkfile (Err UnicodeDecodeError) (Ok a).

Definition half : value := VFloat (Finite (1 # 2)).

(** All expected keys, each with the score 0.5 *)
Definition good_predictions : dict value :=
  map (fun k => (k, half)) expected_keys.

(** A 2 by 2 patch with the labels 1, 2, 3 and 4 *)
Definition small_patch : node :=
  png_file {| arr_dtype := uint8; arr_shape := [2; 2];
              arr_pixels := [1; 2; 3; 4] |}.

(** A file system that knows the given paths only *)
Definition disk (l : list (string * path_state)) (p : string) : path_state :=
  match dict_get l p with
  | Some s => s
  | None => NoFile
  end.

(** One expected patch per case *)
Definition one_patch_manifest : dict (list string) :=
  [ ("1", ["p1.png"]); ("2", ["p2.png"]); ("3", ["p3.png"]);
    ("4", ["p4.png"]); ("5", ["p5.png"]); ("6", ["p6.png"]) ].

(** An archive whose first case folder is a regular file *)
Definition case_is_file_tree : directory :=
  [ ("classification.json", json_file (VDict good_predictions));
    ("wns_case_01", json_file VNone) ].

(** An archive whose first case folder holds the expected patch and one
    more *)
Definition extra_patch_tree : directory :=
  [ ("classification.json", json_file (VDict good_predictions));
    ("wns_case_01", Dir [ ("p1.png", small_patch); ("extra.png", small_patch) ]) ].




(** A patch of 3000 by 3000 pixels, all of them of the label 1 *)
Definition full_patch_array : ndarray :=
  {| arr_dtype := uint8; arr_shape := [3000; 3000];
     arr_pixels := repeat 1 (Z.to_nat (3000 * 3000)) |}.

Definition full_patch : node := png_file full_patch_array.

(** A fully valid archive for [one_patch_manifest] *)
Definition valid_tree : directory :=
  [ ("classification.json", json_file (VDict good_predictions));
    ("wns_case_01", Dir [("p1.png", full_patch)]);
    ("wns_case_02", Dir [("p2.png", full_patch)]);
    ("wns_case_03", Dir [("p3.png", full_patch)]);
    ("wns_case_04", Dir [("p4.png", full_patch)]);
    ("wns_case_05", Dir [("p5.png", full_patch)]);
    ("wns_case_06", Dir [("p6.png", full_patch)]) ].

Definition valid_disk : string -> path_state :=
  disk [("good.zip", Archive (Ok valid_tree))].

(** An archive with all expected keys and the key [ZZZZZZZZ] besides, and
    no case folder *)
Definition extra_key_tree : directory :=
  [ ("classification.json",
     json_file (VDict (("ZZZZZZZZ", VInt 1) :: good_predictions))) ].

(** An archive whose [classification.json] holds a JSON array *)
Definition array_json_tree : directory :=
  [ ("classification.json", json_file (VList [])) ].

Definition array_json_disk : string -> path_state :=
  disk [("a.zip", Archive (Ok array_json_tree))].

(** A disk with a file that is no ZIP container and an archive that has an
    unexpected key and no case folder *)
Definition mixed_disk : string -> path_state :=
  disk [ ("bad.zip", Archive (Err BadZipFile));
         ("a.zip", Archive (Ok extra_key_tree)) ].

(** An archive whose [classification.json] lacks the first two expected
    keys, and which has no case folder *)
Definition two_missing_tree : directory :=
  [ ("classification.json", json_file (VDict (skipn 2 good_predictions))) ].

Definition two_missing_disk : string -> path_state :=
  disk [("a.zip", Archive (Ok two_missing_tree))].

(** Two string hashes *)
Definition seed_up : hash_seed := String.leb.
Definition seed_down : hash_seed := fun a b => String.leb b a.

(** ** Further classes of lines *)

(** The announcement of an archive (line 12) *)
Definition is_checking (m : msg) : bool :=
  match m with Checking _ => true | _ => false end.

(** The lines about the keys (lines 70 and 75) *)
Definition is_keys_line (m : msg) : bool :=
  match m with
  | MissingKeys _ | UnexpectedKeys _ => true
  | _ => false
  end.

(** The two lines whose branch no path reaches (lines 40 and 123) *)
Definition is_unreachable_line (m : msg) : bool :=
  match m with
  | ClassificationIsDirectory | CaseFolderIsFile _ => true
  | _ => false
  end.

(** The lines about the keys of a dictionary (lines 68 to 77) *)
Definition keys_lines (seed : hash_seed) (d : dict value) : list msg :=
  let keys_found := set_of (dict_keys d) in
  let missing_keys := difference expected_keys keys_found in
  let unexpected_keys := difference keys_found expected_keys in
  (if nonempty missing_keys
   then [MissingKeys (iterate seed missing_keys)] else [])
  ++ (if nonempty unexpected_keys
      then [UnexpectedKeys (iterate seed unexpected_keys)] else []).

(** The lines of the checks of lines 58 to 89 on a dictionary *)
Definition schema_lines (seed : hash_seed) (d : dict value) : list msg :=
  keys_lines seed d
  ++ flat_map (value_lines d) (iterate seed (set_of (dict_keys d))).

(** A value on which the loop body over the keys prints nothing *)
Definition quiet_score (v : value) : Prop :=
  valid_score v \/ v = VFloat NaN.

(** ** Further sample inputs *)

(** The expected keys but the first, each with the score 0.5 *)
Definition rest_predictions : dict value := skipn 1 good_predictions.

(** Archives whose [classification.json] lacks the first expected key, or
    gives it a string, the score 1.5 or the score NaN *)
Definition one_missing_tree : directory :=
  [ ("classification.json", json_file (VDict rest_predictions)) ].

Definition string_value_predictions : dict value :=
  ("FoSJZXMf", VStr "high") :: rest_predictions.

Definition string_value_tree : directory :=
  [ ("classification.json", json_file (VDict string_value_predictions)) ].

Definition out_of_range_predictions : dict value :=
  ("FoSJZXMf", VFloat (Finite (3 # 2))) :: rest_predictions.

Definition out_of_range_tree : directory :=
  [ ("classification.json", json_file (VDict out_of_range_predictions)) ].

Definition nan_predictions : dict value :=
  ("FoSJZXMf", VFloat NaN) :: rest_predictions.

Definition nan_tree : directory :=
  [ ("classification.json", json_file (VDict nan_predictions)) ].

(** A key that is one lone surrogate, written [\ud800] in the JSON text:
    [json.load] accepts it, and no encoding of the output has it. *)
Definition lone_surrogate : string :=
  String (ascii_of_nat 237)
    (String (ascii_of_nat 160) (String (ascii_of_nat 128) EmptyString)).

(** The expected keys, the first with the score 5, and the lone surrogate
    with the score 5 *)
Definition surrogate_predictions : dict value :=
  (lone_surrogate, VInt 5) :: ("FoSJZXMf", VInt 5) :: rest_predictions.

Definition surrogate_tree : directory :=
  [ ("classification.json", json_file (VDict surrogate_predictions)) ].

(** A manifest that expects no patch, and a valid archive for it *)
Definition no_patch_manifest : dict (list string) :=
  [ ("1", []); ("2", []); ("3", []); ("4", []); ("5", []); ("6", []) ].

Definition no_patch_tree : directory :=
  [ ("classification.json", json_file (VDict good_predictions));
    ("wns_case_01", Dir []); ("wns_case_02", Dir []); ("wns_case_03", Dir []);
    ("wns_case_04", Dir []); ("wns_case_05", Dir []); ("wns_case_06", Dir []) ].

(** A 2 by 2 patch of 16-bit samples with the values 0, 1, 11 and 11 *)
Definition odd_patch_array : ndarray :=
  {| arr_dtype := uint16; arr_shape := [2; 2]; arr_pixels := [0; 1; 11; 11] |}.

(** An archive whose first case folder holds that patch, a file that is no
    image, and nothing else *)
Definition odd_patch_tree : directory :=
  [ ("classification.json", json_file (VDict good_predictions));
    ("wns_case_01", Dir [ ("p1.png", png_file odd_patch_array);
                          ("notes.png", json_file VNone) ]) ].

(** An archive whose first case folder holds a file that cannot be read *)
Definition unreadable_patch_tree : directory :=
  [ ("classification.json", json_file (VDict good_predictions));
    ("wns_case_01", Dir [ ("p1.png", mkfile (Err OSError) (Err OSError)) ]) ].

Definition unreadable_patch_disk : string -> path_state :=
  disk [("a.zip", Archive (Ok unreadable_patch_tree))].

Definition extra_patch_disk : string -> path_state :=
  disk [("a.zip", Archive (Ok extra_patch_tree))].

(** ** Properties of the embedding *)

(** *** Sample runs *)

Example auc_of_three_scores :
  roc_auc_score (dummy_gt 3)
    [VFloat (Finite (9 # 10)); VFloat (Finite (1 # 10)); VInt 1]
  = Ok (1 # 2)%Q.
Proof. reflexivity. Qed.

Example auc_of_nan :
  roc_auc_score (dummy_gt 3) [VFloat (Finite (9 # 10)); VFloat NaN; VInt 1]
  = Err ValueError.
Proof. reflexivity. Qed.

Example run_on_extra_patch_tree :
  check_extracted String.leb (Ok one_patch_manifest) extra_patch_tree
  = ([ClassificationValid; UnexpectedPatches "wns_case_01" [];
      PatchShape "p1.png" [2; 2]; PatchShape "extra.png" [2; 2];
      CaseFolderMissing "wns_case_02"; CaseFolderMissing "wns_case_03";
      CaseFolderMissing "wns_case_04"; CaseFolderMissing "wns_case_05";
      CaseFolderMissing "wns_case_06"],
     Ok tt).
Proof. vm_compute. reflexivity. Qed.

Example run_on_case_is_file_tree :
  check_extracted String.leb (Ok one_patch_manifest) case_is_file_tree
  = ([ClassificationValid; CaseFolderMissing "wns_case_01";
      CaseFolderMissing "wns_case_02"; CaseFolderMissing "wns_case_03";
      CaseFolderMissing "wns_case_04"; CaseFolderMissing "wns_case_05";
      CaseFolderMissing "wns_case_06"],
     Ok tt).
Proof. vm_compute. reflexivity. Qed.

(** *** The monad *)

Section Monad.
Context {A B : Type}.

Lemma bind_ret (a : A) (k : A -> io B) : bind (ret a) k = k a.
Proof. unfold bind, ret. destruct (k a); reflexivity. Qed.

Lemma bind_raise (e : exn) (k : A -> io B) : bind (raise e) k = raise e.
Proof. reflexivity. Qed.

Lemma bind_ok (out : list msg) (a : A) (k : A -> io B) :
  bind (out, Ok a) k = (out ++ output (k a), outcome (k a)).
Proof. unfold bind, output, outcome. destruct (k a); reflexivity. Qed.

Lemma bind_err (out : list msg) (e : exn) (k : A -> io B) :
  bind (out, Err e) k = (out, Err e).
Proof. reflexivity. Qed.

Lemma output_bind (c : io A) (k : A -> io B) :
  exists rest, output (bind c k) = output c ++ rest.
Proof.
  destruct c as [out [a | e]].
  - rewrite bind_ok. now exists (output (k a)).
  - exists []. simpl. now rewrite app_nil_r.
Qed.
End Monad.

Lemma io_eta {A : Type} (c : io A) : c = (output c, outcome c).
Proof. now destruct c. Qed.

Lemma output_pair {A : Type} (out : list msg) (r : result A) :
  output (out, r) = out.
Proof. reflexivity. Qed.

Lemma outcome_pair {A : Type} (out : list msg) (r : result A) :
  outcome (out, r) = r.
Proof. reflexivity. Qed.

Ltac io_simpl := rewrite ?output_pair, ?outcome_pair in *.

(** *** Archives that are skipped *)




(** *** Boolean scores *)

(** C9: a boolean value passes the type check, since [bool] is a subclass
    of [int], and the range check, since [True] is 1 and [False] is 0: the
    loop body prints nothing for it and leaves the flag as it was. *)
Theorem boolean_value_is_accepted (predictions : dict value) (key : string)
    (b : bool) (flag : bool) :
  dict_get predictions key = Some (VBool b) ->
  isinstance_int (VBool b) = true
  /\ (exists x, as_number (VBool b) = Some x
                /\ lt_zero x = false /\ gt_one x = false)
  /\ check_value predictions key flag = ([], Ok flag).
Proof.
  intros Hget. split; [reflexivity | split].
  - exists (NInt (Z.b2z b)). now destruct b.
  - unfold check_value. rewrite Hget. now destruct b.
Qed.

Lemma boolean_value_is_accepted_witness :
  check_value [("FoSJZXMf", VBool true)] "FoSJZXMf" false = ([], Ok false).
Proof.
  apply (boolean_value_is_accepted [("FoSJZXMf", VBool true)] "FoSJZXMf"
           true false eq_refl).
Defined.

(** *** What a computation can print *)

Section Printed.
Variable P : msg -> Prop.

Lemma printed_bind {A B : Type} (c : io A) (k : A -> io B) :
  Forall P (output c) -> (forall a, Forall P (output (k a))) ->
  Forall P (output (bind c k)).
Proof.
  intros Hc Hk. destruct c as [out [a | e]].
  - rewrite bind_ok. io_simpl. apply Forall_app. split; [exact Hc | apply Hk].
  - exact Hc.
Qed.

Lemma printed_for_each {A S : Type} (xs : list A) (body : A -> S -> io S) :
  (forall x s, Forall P (output (body x s))) ->
  forall s, Forall P (output (for_each xs body s)).
Proof.
  intros Hbody. induction xs as [| x xs IH]; intros s; cbn [for_each].
  - constructor.
  - apply printed_bind; [apply Hbody | exact IH].
Qed.

Lemma printed_report_if (c : bool) (m : msg) (flag : bool) :
  P m -> Forall P (output (report_if c m flag)).
Proof. intros Hm. destruct c; cbn; auto. Qed.
End Printed.

Lemma check_patch_prints (patch : string * node) (flag : bool) :
  Forall (fun m => is_patch_line m = true) (output (check_patch patch flag)).
Proof.
  unfold check_patch. destruct (open_image (snd patch)) as [a | e].
  - repeat (apply printed_bind; [| intros ?]);
      apply printed_report_if; reflexivity.
  - destruct (caught_at_patch e); cbn; auto.
Qed.

(** *** A case folder that is a regular file *)

(** C5: when the path of a case folder is a regular file, the first test
    of the branch (line 119) already holds, so the script prints the
    WARNING that the folder is missing and sets the flag; the ERROR of
    line 123 is not printed. *)
Theorem case_folder_as_file_gets_warning (seed : hash_seed)
    (all_expected_patches : dict (list string)) (tempdir : directory)
    (case : Z) (flag : bool) (f : file) :
  child tempdir ("wns_case_" ++ format_02d case)%string = Some (File f) ->
  check_case seed all_expected_patches tempdir case flag
    = ([CaseFolderMissing ("wns_case_" ++ format_02d case)%string], Ok true)
  /\ severity_of (CaseFolderMissing ("wns_case_" ++ format_02d case)%string)
     = WARNING.
Proof.
  intros Hchild. split; [| reflexivity].
  unfold check_case. rewrite Hchild. reflexivity.
Qed.

Lemma case_folder_as_file_gets_warning_witness :
  check_case String.leb one_patch_manifest case_is_file_tree 1 false
  = ([CaseFolderMissing "wns_case_01"], Ok true).
Proof.
  apply (case_folder_as_file_gets_warning String.leb one_patch_manifest
           case_is_file_tree 1 false _ eq_refl).
Defined.

Lemma check_case_folder_prints (P : msg -> Prop) (seed : hash_seed)
    (case_str : string) (case_path : option node) (expected : list string)
    (flag : bool) :
  (forall l, P (MissingPatches case_str l)) ->
  (forall l, P (UnexpectedPatches case_str l)) ->
  (forall m, is_patch_line m = true -> P m) ->
  Forall P (output (check_case_folder seed case_str case_path expected flag)).
Proof.
  intros Hmiss Hunexp Hpatch. unfold check_case_folder.
  apply printed_bind; [apply printed_report_if, Hmiss | intros ?].
  apply printed_bind; [apply printed_report_if, Hunexp | intros ?].
  apply printed_for_each. intros x s.
  eapply Forall_impl; [| apply check_patch_prints]. exact Hpatch.
Qed.

(** The ERROR of line 123 is never printed: its branch is entered only for
    a path that is a directory and a regular file at once. *)
Lemma case_folder_is_file_never_printed (seed : hash_seed)
    (all_expected_patches : dict (list string)) (tempdir : directory)
    (case : Z) (flag : bool) (s : string) :
  ~ In (CaseFolderIsFile s)
       (output (check_case seed all_expected_patches tempdir case flag)).
Proof.
  unfold check_case.
  destruct (child tempdir _) as [[f | entries] |]; cbn [is_dir is_file negb].
  - cbn. intros [H | []]. discriminate.
  - destruct (dict_get all_expected_patches (str case)) as [expected |].
    + intros Hin.
      pose proof (check_case_folder_prints (fun m => m <> CaseFolderIsFile s)
                    seed ("wns_case_" ++ format_02d case)%string
                    (Some (Dir entries)) expected flag) as Hall.
      rewrite Forall_forall in Hall.
      refine (Hall _ _ _ _ Hin eq_refl); try discriminate.
      intros m Hm ->. discriminate.
    + cbn. tauto.
  - cbn. intros [H | []]. discriminate.
Qed.

(** *** The warning about unexpected patches *)

Lemma report_if_eq (c : bool) (m : msg) (flag : bool) :
  report_if c m flag = ((if c then [m] else []), Ok (c || flag)).
Proof. now destruct c. Qed.

Lemma check_case_folder_eq (seed : hash_seed) (case_str : string)
    (case_path : option node) (expected : list string) (flag : bool) :
  let found := set_of (map fst (glob_png case_path)) in
  let missing := difference (set_of expected) found in
  let unexpected := difference found (set_of expected) in
  let patches :=
    for_each (glob_png case_path) check_patch
      (nonempty unexpected || (nonempty missing || flag)) in
  check_case_folder seed case_str case_path expected flag
  = ((if nonempty missing
      then [MissingPatches case_str (iterate seed missing)] else [])
     ++ (if nonempty unexpected
         then [UnexpectedPatches case_str (iterate seed missing)] else [])
     ++ output patches,
     outcome patches).
Proof.
  intros found missing unexpected patches. unfold check_case_folder.
  fold found. fold missing. fold unexpected.
  rewrite !report_if_eq, bind_ok. io_simpl.
  rewrite report_if_eq, bind_ok. reflexivity.
Qed.

(** C2: the WARNING about unexpected patches is printed when there are
    unexpected patches, but the names it lists are those of the missing
    patches (line 138 formats [missing_patches]). *)
Theorem unexpected_patches_warning_lists_missing (seed : hash_seed)
    (case_str : string) (case_path : option node) (expected : list string)
    (flag : bool) :
  nonempty (difference (set_of (map fst (glob_png case_path)))
                       (set_of expected)) = true ->
  In (UnexpectedPatches case_str
        (iterate seed (difference (set_of expected)
                         (set_of (map fst (glob_png case_path))))))
     (output (check_case_folder seed case_str case_path expected flag))
  /\ forall listed,
       In (UnexpectedPatches case_str listed)
          (output (check_case_folder seed case_str case_path expected flag)) ->
       listed = iterate seed (difference (set_of expected)
                                (set_of (map fst (glob_png case_path)))).
Proof.
  intros Hunexpected. rewrite check_case_folder_eq. cbn zeta.
  rewrite Hunexpected. io_simpl. split.
  - apply in_or_app. right. now left.
  - intros listed Hin.
    apply in_app_or in Hin as [Hin | Hin].
    { destruct (nonempty (difference (set_of expected) _)); simpl in Hin;
        [destruct Hin as [Hin | []]; discriminate | destruct Hin]. }
    simpl in Hin. destruct Hin as [Hin | Hin]; [now injection Hin |].
    pose proof (printed_for_each (fun m => is_patch_line m = true)
                  (glob_png case_path) check_patch check_patch_prints true)
      as Hall.
    rewrite Forall_forall in Hall. apply Hall in Hin. discriminate.
Qed.

Lemma unexpected_patches_warning_lists_missing_witness :
  difference (set_of (map fst (glob_png (child extra_patch_tree "wns_case_01"))))
             (set_of ["p1.png"]) = ["extra.png"]
  /\ In (UnexpectedPatches "wns_case_01" [])
        (output (check_case String.leb one_patch_manifest extra_patch_tree 1 false)).
Proof.
  split; [reflexivity |].
  exact (proj1 (unexpected_patches_warning_lists_missing String.leb
                  "wns_case_01" (child extra_patch_tree "wns_case_01")
                  ["p1.png"] false eq_refl)).
Defined.

(** *** Sets and dictionaries *)

Lemma mem_In (x : string) (s : list string) : mem x s = true <-> In x s.
Proof.
  unfold mem. rewrite existsb_exists. split.
  - intros (y & Hy & Heq). apply String.eqb_eq in Heq. now subst.
  - intros Hin. exists x. split; [exact Hin | apply String.eqb_refl].
Qed.

Lemma set_of_In (x : string) (l : list string) : In x (set_of l) <-> In x l.
Proof. apply nodup_In. Qed.

Lemma set_of_NoDup (l : list string) : NoDup l -> set_of l = l.
Proof. apply nodup_fixed_point. Qed.

Lemma difference_In (x : string) (a b : list string) :
  In x (difference a b) <-> In x a /\ ~ In x b.
Proof.
  unfold difference. rewrite filter_In, negb_true_iff, <- not_true_iff_false.
  now rewrite mem_In.
Qed.

Lemma difference_nil (a b : list string) : incl a b -> difference a b = [].
Proof.
  intros Hincl. destruct (difference a b) as [| x l] eqn:E; [reflexivity |].
  assert (Hin : In x (difference a b)) by (rewrite E; now left).
  apply difference_In in Hin as [Ha Hb]. now apply Hincl in Ha.
Qed.

Lemma difference_perm (a a' b : list string) :
  Permutation a a' -> Permutation (difference a b) (difference a' b).
Proof.
  unfold difference. induction 1; cbn.
  - constructor.
  - destruct (negb (mem x b)); auto.
  - destruct (negb (mem x b)), (negb (mem y b)); auto. constructor.
  - etransitivity; eassumption.
Qed.

Lemma place_perm (seed : hash_seed) (x : string) (l : list string) :
  Permutation (place seed x l) (x :: l).
Proof.
  induction l as [| y l IH]; cbn.
  - reflexivity.
  - destruct (seed x y); [reflexivity |].
    rewrite IH. constructor.
Qed.

Lemma iterate_perm (seed : hash_seed) (s : pyset) : Permutation (iterate seed s) s.
Proof.
  induction s as [| x s IH]; cbn.
  - constructor.
  - rewrite place_perm. now constructor.
Qed.

Lemma iterate_In (seed : hash_seed) (s : pyset) (x : string) :
  In x (iterate seed s) <-> In x s.
Proof.
  split; apply Permutation_in;
    [apply iterate_perm | symmetry; apply iterate_perm].
Qed.

Lemma dict_get_key {A : Type} (d : dict A) (k : string) :
  In k (dict_keys d) -> exists v, dict_get d k = Some v /\ In (k, v) d.
Proof.
  induction d as [| [k' v'] d IH]; cbn; [tauto |].
  intros [Heq | Hin].
  - subst k'. rewrite String.eqb_refl. exists v'. auto.
  - destruct (String.eqb_spec k' k) as [-> | Hne].
    + exists v'. auto.
    + destruct (IH Hin) as (v & Hget & Hv). exists v. auto.
Qed.

Lemma for_each_silent {A S : Type} (xs : list A) (body : A -> S -> io S) (s : S) :
  (forall x, In x xs -> body x s = ([], Ok s)) ->
  for_each xs body s = ([], Ok s).
Proof.
  induction xs as [| x xs IH]; intros Hbody; cbn [for_each].
  - reflexivity.
  - rewrite (Hbody x) by now left.
    change (bind ([], Ok s) (fun s' => for_each xs body s'))
      with (bind (ret s) (fun s' => for_each xs body s')).
    rewrite bind_ret. apply IH. intros y Hy. apply Hbody. now right.
Qed.

(** *** The classification check on valid scores *)

Lemma valid_score_in_range (x : number) :
  in_unit_interval x -> lt_zero x || gt_one x = false.
Proof.
  destruct x as [n | [q | | |]]; cbn; try tauto.
  - intros [H0 H1]. apply orb_false_iff. split; lia.
  - intros [H0 H1]. apply Qle_bool_iff in H0, H1. now rewrite H0, H1.
Qed.

Lemma check_value_valid (d : dict value) (k : string) (v : value) (flag : bool) :
  dict_get d k = Some v -> valid_score v ->
  check_value d k flag = ([], Ok flag).
Proof.
  intros Hget (x & Hx & Hrange). unfold check_value. rewrite Hget.
  destruct v; try discriminate; cbn in Hx; injection Hx as <-;
    pose proof (valid_score_in_range _ Hrange) as H;
    cbn [isinstance_float isinstance_int negb andb as_number];
    now rewrite H.
Qed.

Lemma check_values_valid (seed : hash_seed) (d : dict value) (flag : bool) :
  valid_scores d ->
  for_each (iterate seed (set_of (dict_keys d))) (check_value d) flag
  = ([], Ok flag).
Proof.
  intros Hvalid. apply for_each_silent. intros k Hk.
  apply iterate_In, set_of_In, dict_get_key in Hk as (v & Hget & Hin).
  apply (check_value_valid d k v flag Hget).
  unfold valid_scores in Hvalid. rewrite Forall_forall in Hvalid.
  exact (Hvalid (k, v) Hin).
Qed.

Lemma check_keys_and_values_valid (seed : hash_seed) (d : dict value)
    (flag : bool) :
  valid_scores d ->
  let keys_found := set_of (dict_keys d) in
  let missing := difference expected_keys keys_found in
  let unexpected := difference keys_found expected_keys in
  check_keys_and_values seed d flag
  = ((if nonempty missing then [MissingKeys (iterate seed missing)] else [])
     ++ (if nonempty unexpected
         then [UnexpectedKeys (iterate seed unexpected)] else []),
     Ok (nonempty unexpected || (nonempty missing || flag))).
Proof.
  intros Hvalid keys_found missing unexpected. unfold check_keys_and_values.
  fold keys_found. fold missing. fold unexpected.
  rewrite !report_if_eq, bind_ok. io_simpl.
  rewrite report_if_eq, bind_ok. io_simpl.
  unfold keys_found. rewrite check_values_valid by exact Hvalid.
  io_simpl. now rewrite app_nil_r.
Qed.

Lemma check_classification_with_loaded (auc : metric) (seed : hash_seed)
    (tempdir : directory) (f : file) (d : dict value) :
  child tempdir "classification.json" = Some (File f) ->
  json_load f = Ok (VDict d) ->
  check_classification_with auc seed tempdir
  = (e <- check_keys_and_values seed d false ;; check_auc auc d e).
Proof.
  intros Hchild Hload. unfold check_classification_with.
  rewrite Hchild. cbn [is_file is_dir negb]. now rewrite Hload.
Qed.

Lemma check_classification_loaded (seed : hash_seed) (tempdir : directory)
    (f : file) (d : dict value) :
  child tempdir "classification.json" = Some (File f) ->
  json_load f = Ok (VDict d) ->
  check_classification seed tempdir
  = (e <- check_keys_and_values seed d false ;; check_auc roc_auc_score d e).
Proof. apply check_classification_with_loaded. Qed.

(** *** The sanity computation *)

Lemma unique_zeros (n : nat) :
  fold_right insert_unique [] (repeat 0 (S n)) = [0].
Proof.
  induction n as [| n IH].
  - reflexivity.
  - change (repeat 0 (S (S n))) with (0 :: repeat 0 (S n)).
    cbn [fold_right]. now rewrite IH.
Qed.

Lemma dummy_gt_classes (n : nat) :
  (2 <= n)%nat -> fold_right insert_unique [] (dummy_gt n) = [0; 1].
Proof.
  intros Hn. unfold dummy_gt.
  destruct n as [| [| n]]; [lia | lia |].
  replace (S (S n) - 1)%nat with (S n) by lia.
  cbn [fold_right]. now rewrite unique_zeros.
Qed.

Lemma dummy_gt_length (n : nat) : (1 <= n)%nat -> List.length (dummy_gt n) = n.
Proof.
  intros Hn. unfold dummy_gt. cbn [List.length]. rewrite repeat_length. lia.
Qed.

Lemma scores_of_valid (d : dict value) :
  valid_scores d -> exists qs, scores_of (dict_values d) = Some qs.
Proof.
  unfold dict_values.
  induction 1 as [| [k v] d (x & Hx & Hrange) _ (qs & IH)]; cbn.
  - now exists [].
  - cbn in Hx. unfold score_of. rewrite Hx, IH.
    destruct x as [n | [q | | |]]; cbn in Hrange; try tauto; eauto.
Qed.

(** With at least two entries, all of them finite numbers, the area under
    the curve of the dummy labels is computed. *)
Lemma roc_auc_score_dummy (d : dict value) :
  (2 <= List.length d)%nat -> valid_scores d ->
  exists auc,
    roc_auc_score (dummy_gt (List.length d)) (dict_values d) = Ok auc.
Proof.
  intros Hlen Hvalid. unfold roc_auc_score.
  rewrite dummy_gt_length by lia. unfold dict_values at 1.
  rewrite length_map, Nat.eqb_refl. cbn [negb].
  destruct (scores_of_valid d Hvalid) as (qs & ->).
  rewrite dummy_gt_classes by lia. eauto.
Qed.

Lemma check_auc_valid (d : dict value) :
  (2 <= List.length d)%nat -> valid_scores d ->
  check_auc roc_auc_score d false = ([], Ok false).
Proof.
  intros Hlen Hvalid. unfold check_auc.
  destruct (roc_auc_score_dummy d Hlen Hvalid) as (auc & ->).
  now destruct (auc_guard d false).
Qed.

(** *** Exactly the expected keys, and one key more *)

Lemma expected_keys_NoDup : NoDup expected_keys.
Proof.
  replace expected_keys with (nodup string_dec expected_keys)
    by (vm_compute; reflexivity).
  apply NoDup_nodup.
Qed.

Lemma good_predictions_valid : valid_scores good_predictions.
Proof.
  unfold valid_scores, good_predictions. apply Forall_forall.
  intros [k v] Hin. apply in_map_iff in Hin as (k' & Heq & _).
  injection Heq as _ <-. exists (NFloat (Finite (1 # 2))).
  split; [reflexivity |]. cbn. split; discriminate.
Qed.

Lemma check_case_prints (seed : hash_seed)
    (all_expected_patches : dict (list string)) (tempdir : directory)
    (case : Z) (flag : bool) :
  Forall (fun m => is_segmentation_line m = true)
    (output (check_case seed all_expected_patches tempdir case flag)).
Proof.
  unfold check_case.
  destruct (negb (is_dir _)); [repeat constructor |].
  destruct (is_file _); [repeat constructor |].
  destruct (dict_get _ _); [| constructor].
  apply check_case_folder_prints; try reflexivity.
  intros m Hm. now destruct m.
Qed.

Lemma segmentation_part_prints (seed : hash_seed) (man : manifest)
    (tempdir : directory) :
  Forall (fun m => is_segmentation_line m = true)
    (output (segmentation_part seed man tempdir)).
Proof.
  unfold segmentation_part. apply printed_bind.
  - unfold check_segmentation. destruct man as [m | e]; [| constructor].
    apply printed_for_each. intros. apply check_case_prints.
  - intros flag. apply printed_bind; [| constructor].
    destruct flag; repeat constructor.
Qed.

(** With exactly the expected keys and valid scores, the checks of the
    keys and of the values print nothing. *)
Lemma check_keys_and_values_expected (seed : hash_seed) (d : dict value) :
  Permutation (dict_keys d) expected_keys -> valid_scores d ->
  check_keys_and_values seed d false = ([], Ok false).
Proof.
  intros Hkeys Hvalid.
  assert (Hnodup : NoDup (dict_keys d)).
  { eapply Permutation_NoDup; [symmetry; exact Hkeys | apply expected_keys_NoDup]. }
  rewrite check_keys_and_values_valid by exact Hvalid. cbn zeta.
  rewrite set_of_NoDup by exact Hnodup.
  rewrite (difference_nil expected_keys), (difference_nil (dict_keys d)).
  - reflexivity.
  - intros k. apply Permutation_in. exact Hkeys.
  - intros k. apply Permutation_in. symmetry. exact Hkeys.
Qed.

Lemma expected_keys_length (d : dict value) :
  Permutation (dict_keys d) expected_keys -> List.length d = 40%nat.
Proof.
  intros Hkeys. unfold dict_keys in Hkeys. apply Permutation_length in Hkeys.
  now rewrite length_map in Hkeys.
Qed.

Lemma classification_part_valid (seed : hash_seed) (tempdir : directory)
    (f : file) (d : dict value) :
  child tempdir "classification.json" = Some (File f) ->
  json_load f = Ok (VDict d) ->
  Permutation (dict_keys d) expected_keys ->
  valid_scores d ->
  classification_part seed tempdir = ([ClassificationValid], Ok false).
Proof.
  intros Hchild Hload Hkeys Hvalid.
  pose proof (expected_keys_length d Hkeys) as Hlen.
  unfold classification_part.
  rewrite (check_classification_loaded seed tempdir f d Hchild Hload).
  rewrite (check_keys_and_values_expected seed d Hkeys Hvalid), bind_ok.
  io_simpl. rewrite check_auc_valid by (lia || exact Hvalid). reflexivity.
Qed.



(** C4: with the 40 expected keys and the extra key [ZZZZZZZZ], all values
    valid, the classification check prints the WARNING that names
    [ZZZZZZZZ] as unexpected and nothing else, its flag is set, and the
    output for the archive holds no SUCCESS line for the classification. *)
Theorem extra_key_warns_and_fails (seed : hash_seed) (man : manifest)
    (tempdir : directory) (f : file) (d : dict value) :
  child tempdir "classification.json" = Some (File f) ->
  json_load f = Ok (VDict d) ->
  Permutation (dict_keys d) ("ZZZZZZZZ" :: expected_keys) ->
  valid_scores d ->
  classification_part seed tempdir = ([UnexpectedKeys ["ZZZZZZZZ"]], Ok true)
  /\ In (UnexpectedKeys ["ZZZZZZZZ"]) (output (check_extracted seed man tempdir))
  /\ ~ In ClassificationValid (output (check_extracted seed man tempdir)).
Proof.
  intros Hchild Hload Hkeys Hvalid.
  assert (Hnodup : NoDup (dict_keys d)).
  { eapply Permutation_NoDup; [symmetry; exact Hkeys |].
    constructor; [| apply expected_keys_NoDup].
    intros Hin. apply mem_In in Hin. vm_compute in Hin. discriminate. }
  assert (Hunexpected :
            difference (dict_keys d) expected_keys = ["ZZZZZZZZ"]).
  { apply Permutation_length_1_inv. symmetry.
    rewrite (difference_perm _ _ expected_keys Hkeys).
    vm_compute. reflexivity. }
  assert (Hpart : classification_part seed tempdir
                  = ([UnexpectedKeys ["ZZZZZZZZ"]], Ok true)).
  { unfold classification_part.
    rewrite (check_classification_loaded seed tempdir f d Hchild Hload).
    rewrite check_keys_and_values_valid by exact Hvalid. cbn zeta.
    rewrite set_of_NoDup by exact Hnodup.
    rewrite (difference_nil expected_keys), Hunexpected.
    - rewrite bind_ok. io_simpl. cbn [nonempty orb app].
      unfold check_auc, auc_guard. rewrite andb_false_r. reflexivity.
    - intros k Hk. eapply Permutation_in; [symmetry; exact Hkeys |].
      now right. }
  split; [exact Hpart |].
  unfold check_extracted. rewrite Hpart, bind_ok. io_simpl. cbn [app].
  split; [now left |].
  intros [Hin | Hin]; [discriminate |].
  assert (Hall : Forall (fun m => m <> ClassificationValid)
            (output (any_segmentation_error <-
                       segmentation_part seed man tempdir ;;
                     if negb true && negb any_segmentation_error
                     then print SubmissionValid else ret tt))).
  { apply printed_bind.
    - eapply Forall_impl; [| apply segmentation_part_prints].
      intros m Hm ->. discriminate.
    - intros flag. constructor. }
  rewrite Forall_forall in Hall. exact (Hall _ Hin eq_refl).
Qed.

Lemma extra_key_tree_valid :
  valid_scores (("ZZZZZZZZ", VInt 1) :: good_predictions).
Proof.
  constructor; [| exact good_predictions_valid].
  exists (NInt 1). split; [reflexivity | cbn; lia].
Qed.

Lemma extra_key_warns_and_fails_witness :
  classification_part String.leb extra_key_tree
  = ([UnexpectedKeys ["ZZZZZZZZ"]], Ok true).
Proof.
  exact (proj1 (extra_key_warns_and_fails String.leb (Ok one_patch_manifest)
                  extra_key_tree _ (("ZZZZZZZZ", VInt 1) :: good_predictions)
                  eq_refl eq_refl (Permutation_refl _) extra_key_tree_valid)).
Defined.

(** *** The segmentation check on valid patches *)

Lemma case_folder_names :
  map (fun case => ("wns_case_" ++ format_02d case)%string) (range 1 (1 + cases))
  = [ "wns_case_01"; "wns_case_02"; "wns_case_03";
      "wns_case_04"; "wns_case_05"; "wns_case_06" ].
Proof. reflexivity. Qed.

Lemma insert_unique_In (v x : Z) (l : list Z) :
  In v (insert_unique x l) -> v = x \/ In v l.
Proof.
  induction l as [| y l IH]; cbn.
  - intros [<- | []]. now left.
  - destruct (x <? y); [cbn; intuition auto |].
    destruct (x =? y); cbn; intuition auto.
Qed.

Lemma np_unique_In (a : ndarray) (v : Z) :
  In v (np_unique a) -> In v (arr_pixels a).
Proof.
  unfold np_unique. induction (arr_pixels a) as [| x l IH]; cbn; [tauto |].
  intros Hin. apply insert_unique_In in Hin as [-> | Hin]; auto.
Qed.

Lemma expected_class (v : Z) :
  1 <= v <= 10 -> existsb (Z.eqb v) expected_classes = true.
Proof.
  intros Hv. apply existsb_exists. exists v. split; [| apply Z.eqb_refl].
  change expected_classes with [1; 2; 3; 4; 5; 6; 7; 8; 9; 10].
  cbn. lia.
Qed.

Lemma check_patch_valid (patch : string * node) (flag : bool) :
  valid_patch (snd patch) -> check_patch patch flag = ([], Ok flag).
Proof.
  intros (a & Hopen & Hdtype & Hshape & Hpixels). unfold check_patch.
  rewrite Hopen, Hdtype, Hshape.
  replace (difference_Z (np_unique a) expected_classes) with (@nil Z).
  - reflexivity.
  - symmetry. unfold difference_Z.
    destruct (filter _ (np_unique a)) as [| v l] eqn:E; [reflexivity |].
    assert (Hin : In v (filter (fun v => negb (existsb (Z.eqb v) expected_classes))
                          (np_unique a))) by (rewrite E; now left).
    apply filter_In in Hin as [Hin Hout]. apply np_unique_In in Hin.
    rewrite Forall_forall in Hpixels.
    rewrite (expected_class v (Hpixels v Hin)) in Hout. discriminate.
Qed.

Lemma check_case_valid (seed : hash_seed)
    (all_expected_patches : dict (list string)) (tempdir : directory)
    (case : Z) (flag : bool) :
  valid_case all_expected_patches tempdir case ->
  check_case seed all_expected_patches tempdir case flag = ([], Ok flag).
Proof.
  intros (entries & expected & Hchild & Hget & Hsame & Hpatches).
  unfold check_case. rewrite Hchild, Hget. cbn [is_dir is_file negb].
  rewrite check_case_folder_eq. cbn zeta.
  rewrite (difference_nil (set_of expected)), (difference_nil (set_of (map fst _))).
  - cbn [nonempty orb app].
    rewrite for_each_silent; [reflexivity |].
    intros patch Hin. apply check_patch_valid.
    rewrite Forall_forall in Hpatches. now apply Hpatches.
  - intros name Hin. apply set_of_In. now apply Hsame, set_of_In.
  - intros name Hin. apply set_of_In. now apply Hsame, set_of_In.
Qed.

Lemma check_segmentation_valid (seed : hash_seed)
    (all_expected_patches : dict (list string)) (tempdir : directory) :
  Forall (valid_case all_expected_patches tempdir) [1; 2; 3; 4; 5; 6] ->
  check_segmentation seed (Ok all_expected_patches) tempdir = ([], Ok false).
Proof.
  intros Hcases. unfold check_segmentation.
  apply for_each_silent. intros case Hin.
  apply check_case_valid. rewrite Forall_forall in Hcases. now apply Hcases.
Qed.

(** C1: for a fully valid archive the script prints the announcement and
    the three SUCCESS lines and nothing else: no line is tagged ERROR and
    the last line says that the submission is completely valid. *)
Theorem fully_valid_archive_succeeds (seed : hash_seed)
    (all_expected_patches : dict (list string)) (fs : string -> path_state)
    (archive_path : string) (tempdir : directory) :
  fs archive_path = Archive (Ok tempdir) ->
  fully_valid all_expected_patches tempdir ->
  check_archive seed (Ok all_expected_patches) fs archive_path
    = ([Checking archive_path; ClassificationValid; SegmentationValid;
        SubmissionValid], Ok tt)
  /\ Forall (fun m => is_error m = false)
       (output (check_archive seed (Ok all_expected_patches) fs archive_path))
  /\ last (output (check_archive seed (Ok all_expected_patches) fs archive_path))
          (Checking archive_path)
     = SubmissionValid.
Proof.
  intros Hfs ((f & d & Hchild & Hload & Hkeys & Hvalid) & Hcases).
  assert (H : check_archive seed (Ok all_expected_patches) fs archive_path
              = ([Checking archive_path; ClassificationValid;
                  SegmentationValid; SubmissionValid], Ok tt)).
  { unfold check_archive. rewrite Hfs. unfold check_extracted.
    rewrite (classification_part_valid seed tempdir f d Hchild Hload
               Hkeys Hvalid).
    unfold segmentation_part.
    rewrite (check_segmentation_valid seed _ _ Hcases). reflexivity. }
  rewrite H. repeat split. repeat constructor.
Qed.

Lemma full_patch_valid : valid_patch full_patch.
Proof.
  exists full_patch_array. repeat split.
  apply Forall_forall. intros v Hin.
  apply repeat_spec in Hin. lia.
Qed.

Lemma valid_tree_fully_valid : fully_valid one_patch_manifest valid_tree.
Proof.
  split.
  - exists {| json_load := Ok (VDict good_predictions);
              image_open := Err UnidentifiedImageError |}, good_predictions.
    repeat split; [reflexivity | exact good_predictions_valid].
  - assert (Hcase : forall case name,
              child valid_tree ("wns_case_" ++ format_02d case)%string
                = Some (Dir [(name, full_patch)]) ->
              dict_get one_patch_manifest (str case) = Some [name] ->
              glob_png (Some (Dir [(name, full_patch)])) = [(name, full_patch)] ->
              valid_case one_patch_manifest valid_tree case).
    { intros case name Hchild Hget Hglob.
      exists [(name, full_patch)], [name]. rewrite Hglob.
      repeat split; auto. constructor; [exact full_patch_valid | constructor]. }
    repeat constructor.
    + now apply (Hcase 1 "p1.png").
    + now apply (Hcase 2 "p2.png").
    + now apply (Hcase 3 "p3.png").
    + now apply (Hcase 4 "p4.png").
    + now apply (Hcase 5 "p5.png").
    + now apply (Hcase 6 "p6.png").
Qed.

Lemma fully_valid_archive_succeeds_witness :
  check_archive String.leb (Ok one_patch_manifest) valid_disk "good.zip"
  = ([Checking "good.zip"; ClassificationValid; SegmentationValid;
      SubmissionValid], Ok tt).
Proof.
  apply (fully_valid_archive_succeeds String.leb one_patch_manifest valid_disk
           "good.zip" valid_tree eq_refl valid_tree_fully_valid).
Defined.

(** *** Findings and flags *)

Lemma nonempty_app {A : Type} (l l' : list A) :
  nonempty (l ++ l') = nonempty l || nonempty l'.
Proof. now destruct l. Qed.

Lemma tracks_ret (flag : bool) : tracks flag (ret flag).
Proof. split; [constructor | now intros ? [= <-]]. Qed.

Lemma tracks_raise (flag : bool) (e : exn) : tracks flag (raise e).
Proof. split; [constructor | discriminate]. Qed.

Lemma tracks_print (flag : bool) (m : msg) :
  is_finding m = true -> tracks flag (print m ;; ret true).
Proof. intros Hm. split; [repeat constructor; exact Hm | now intros ? [= <-]]. Qed.

Lemma tracks_report_if (c : bool) (m : msg) (flag : bool) :
  is_finding m = true -> tracks flag (report_if c m flag).
Proof.
  intros Hm. unfold report_if.
  destruct c; [now apply tracks_print | apply tracks_ret].
Qed.

Lemma tracks_bind (flag : bool) (c : io bool) (k : bool -> io bool) :
  tracks flag c -> (forall flag1, tracks flag1 (k flag1)) ->
  tracks flag (bind c k).
Proof.
  intros [Hout Hflag] Hk. destruct c as [out [flag1 | e]].
  - rewrite bind_ok. destruct (Hk flag1) as [Hout' Hflag'].
    unfold tracks. io_simpl. split.
    + apply Forall_app. now split.
    + intros flag2 Hres. rewrite (Hflag' flag2 Hres), nonempty_app.
      generalize (nonempty (output (k flag1))). intros b.
      rewrite (Hflag flag1 eq_refl). now destruct (nonempty out), b, flag.
  - split; [exact Hout | discriminate].
Qed.

Lemma tracks_for_each {A : Type} (xs : list A) (body : A -> bool -> io bool) :
  (forall x flag, tracks flag (body x flag)) ->
  forall flag, tracks flag (for_each xs body flag).
Proof.
  intros Hbody. induction xs as [| x xs IH]; intros flag; cbn [for_each].
  - apply tracks_ret.
  - apply tracks_bind; [apply Hbody | exact IH].
Qed.

Lemma tracks_print_with (flag : bool) (s : string) (m : msg) :
  is_finding m = true -> tracks flag (print_with s m ;; ret true).
Proof.
  intros Hm. unfold print_with.
  destruct (encodable s); [now apply tracks_print | apply tracks_raise].
Qed.

Lemma check_value_tracks (d : dict value) (k : string) (flag : bool) :
  tracks flag (check_value d k flag).
Proof.
  unfold check_value. destruct (dict_get d k) as [v |]; [| apply tracks_raise].
  destruct (negb (isinstance_float v) && negb (isinstance_int v));
    [now apply tracks_print_with |].
  destruct (as_number v) as [x |]; [| apply tracks_raise].
  destruct (lt_zero x || gt_one x);
    [now apply tracks_print_with | apply tracks_ret].
Qed.

Lemma check_auc_tracks (auc : metric) (d : dict value) (flag : bool) :
  tracks flag (check_auc auc d flag).
Proof.
  unfold check_auc.
  destruct (auc_guard d flag); [| apply tracks_ret].
  destruct (auc _ _); [apply tracks_ret | now apply tracks_print].
Qed.

Lemma check_classification_tracks (seed : hash_seed) (tempdir : directory) :
  tracks false (check_classification seed tempdir).
Proof.
  unfold check_classification, check_classification_with.
  destruct (negb (is_file _)); [now apply tracks_print |].
  destruct (is_dir _); [now apply tracks_print |].
  destruct (child tempdir _) as [[f | entries] |]; try apply tracks_raise.
  destruct (json_load f) as [v | e].
  - unfold check_predictions. destruct v; try apply tracks_raise.
    apply tracks_bind; [| intros; apply check_auc_tracks].
    unfold check_keys_and_values.
    apply tracks_bind; [now apply tracks_report_if | intros ?].
    apply tracks_bind; [now apply tracks_report_if | intros ?].
    apply tracks_for_each. intros. apply check_value_tracks.
  - destruct e; try apply tracks_raise; now apply tracks_print.
Qed.

Lemma check_patch_tracks (patch : string * node) (flag : bool) :
  tracks flag (check_patch patch flag).
Proof.
  unfold check_patch. destruct (open_image (snd patch)) as [a | e].
  - apply tracks_bind; [now apply tracks_report_if | intros ?].
    apply tracks_bind; [now apply tracks_report_if | intros ?].
    now apply tracks_report_if.
  - destruct (caught_at_patch e); [now apply tracks_print | apply tracks_raise].
Qed.

Lemma check_case_tracks (seed : hash_seed)
    (all_expected_patches : dict (list string)) (tempdir : directory)
    (case : Z) (flag : bool) :
  tracks flag (check_case seed all_expected_patches tempdir case flag).
Proof.
  unfold check_case.
  destruct (negb (is_dir _)); [now apply tracks_print |].
  destruct (is_file _); [now apply tracks_print |].
  destruct (dict_get _ _); [| apply tracks_raise].
  unfold check_case_folder.
  apply tracks_bind; [now apply tracks_report_if | intros ?].
  apply tracks_bind; [now apply tracks_report_if | intros ?].
  apply tracks_for_each. intros. apply check_patch_tracks.
Qed.

Lemma check_segmentation_tracks (seed : hash_seed) (man : manifest)
    (tempdir : directory) :
  tracks false (check_segmentation seed man tempdir).
Proof.
  unfold check_segmentation. destruct man; [| apply tracks_raise].
  apply tracks_for_each. intros. apply check_case_tracks.
Qed.

(** C3, as the script has it: every line a check prints is a finding, of
    ERROR or of WARNING severity, and each of them sets the flag of its
    category; so when a check completes, its flag is set exactly when it
    printed a line, and the SUCCESS line of the category follows exactly
    when it printed none. *)
Theorem flag_set_by_every_finding (seed : hash_seed) (man : manifest)
    (tempdir : directory) :
  (forall out flag,
      check_classification seed tempdir = (out, Ok flag) ->
      Forall (fun m => is_finding m = true) out
      /\ flag = nonempty out
      /\ classification_part seed tempdir
         = (out ++ (if nonempty out then [] else [ClassificationValid]), Ok flag))
  /\ (forall out flag,
      check_segmentation seed man tempdir = (out, Ok flag) ->
      Forall (fun m => is_finding m = true) out
      /\ flag = nonempty out
      /\ segmentation_part seed man tempdir
         = (out ++ (if nonempty out then [] else [SegmentationValid]), Ok flag)).
Proof.
  split; intros out flag Hrun.
  - destruct (check_classification_tracks seed tempdir) as [Hout Hflag].
    rewrite Hrun in Hout, Hflag. io_simpl.
    specialize (Hflag flag eq_refl). rewrite orb_false_r in Hflag.
    repeat split; [exact Hout | exact Hflag |].
    unfold classification_part. rewrite Hrun, bind_ok, <- Hflag.
    now destruct flag.
  - destruct (check_segmentation_tracks seed man tempdir) as [Hout Hflag].
    rewrite Hrun in Hout, Hflag. io_simpl.
    specialize (Hflag flag eq_refl). rewrite orb_false_r in Hflag.
    repeat split; [exact Hout | exact Hflag |].
    unfold segmentation_part. rewrite Hrun, bind_ok, <- Hflag.
    now destruct flag.
Qed.

Lemma flag_set_by_every_finding_witness :
  classification_part String.leb extra_key_tree
  = ([UnexpectedKeys ["ZZZZZZZZ"]], Ok true).
Proof.
  exact (proj2 (proj2 (proj1 (flag_set_by_every_finding String.leb
                                (Ok one_patch_manifest) extra_key_tree)
                         [UnexpectedKeys ["ZZZZZZZZ"]] true eq_refl))).
Defined.

(** C3, as it is worded, fails: here the only line of the classification
    check is a WARNING, and yet the flag is set and no SUCCESS line is
    printed for the classification. *)
Lemma warning_alone_sets_flag :
  check_classification String.leb extra_key_tree
    = ([UnexpectedKeys ["ZZZZZZZZ"]], Ok true)
  /\ severity_of (UnexpectedKeys ["ZZZZZZZZ"]) = WARNING
  /\ ~ In ClassificationValid
         (output (classification_part String.leb extra_key_tree)).
Proof.
  repeat split. vm_compute. intros [H | []]. discriminate.
Qed.

(** *** A run without the manifest *)

Lemma bind_assoc {A B C : Type} (c : io A) (k : A -> io B) (h : B -> io C) :
  bind (bind c k) h = bind c (fun a => bind (k a) h).
Proof.
  destruct c as [out [a | e]]; [| reflexivity].
  unfold bind. destruct (k a) as [out' [b | e]]; [| reflexivity].
  destruct (h b) as [out'' r]. now rewrite app_assoc.
Qed.

Lemma bind_ext {A B : Type} (c : io A) (k k' : A -> io B) :
  (forall a, k a = k' a) -> bind c k = bind c k'.
Proof.
  intros Hk. destruct c as [out [a | e]]; [| reflexivity].
  unfold bind. now rewrite Hk.
Qed.

Lemma for_each_app {A S : Type} (xs ys : list A) (body : A -> S -> io S) (s : S) :
  for_each (xs ++ ys) body s
  = (s' <- for_each xs body s ;; for_each ys body s').
Proof.
  revert s. induction xs as [| x xs IH]; intros s; cbn [for_each app].
  - now rewrite bind_ret.
  - rewrite bind_assoc. apply bind_ext. exact IH.
Qed.

(** Archives that are not found or that are no ZIP containers do not end
    the run. *)
Lemma main_skipped (seed : hash_seed) (man : manifest)
    (fs : string -> path_state) (skipped : list string) :
  Forall (fun p => fs p = NoFile \/ fs p = Archive (Err BadZipFile)) skipped ->
  outcome (main seed man fs skipped) = Ok tt.
Proof.
  unfold main. induction 1 as [| p l Hp _ IH]; cbn [for_each].
  - reflexivity.
  - assert (Hone : exists out,
              check_archive seed man fs p = (out, Ok tt)).
    { unfold check_archive. destruct Hp as [-> | ->]; eexists; reflexivity. }
    destruct Hone as (out & ->). rewrite bind_ok. exact IH.
Qed.

Lemma check_extracted_without_manifest (seed : hash_seed) (tempdir : directory) :
  exists e,
    check_extracted seed (Err FileNotFoundError) tempdir
    = (output (classification_part seed tempdir), Err e)
    /\ forall flag, outcome (classification_part seed tempdir) = Ok flag ->
                    e = FileNotFoundError.
Proof.
  unfold check_extracted.
  destruct (classification_part seed tempdir) as [out [flag | e]].
  - exists FileNotFoundError. rewrite bind_ok. cbn. now rewrite app_nil_r.
  - exists e. split; [reflexivity | discriminate].
Qed.

(** C10, as the script has it: without the manifest the run ends with an
    uncaught exception while it works on the first archive that was
    extracted, after the lines of the classification check of that
    archive; nothing is printed for the archives that follow.  The
    exception is the [FileNotFoundError] of line 109 whenever the
    classification check of that archive completes. *)
Theorem missing_manifest_ends_run (seed : hash_seed)
    (fs : string -> path_state) (skipped : list string)
    (archive_path : string) (tempdir : directory) (rest : list string) :
  Forall (fun p => fs p = NoFile \/ fs p = Archive (Err BadZipFile)) skipped ->
  fs archive_path = Archive (Ok tempdir) ->
  segmentation_part seed (Err FileNotFoundError) tempdir
    = ([], Err FileNotFoundError)
  /\ exists e,
       main seed (Err FileNotFoundError) fs (skipped ++ archive_path :: rest)
       = (output (main seed (Err FileNotFoundError) fs skipped)
            ++ Checking archive_path
               :: output (classification_part seed tempdir),
          Err e)
       /\ forall flag, outcome (classification_part seed tempdir) = Ok flag ->
                       e = FileNotFoundError.
Proof.
  intros Hskipped Hfs. split; [reflexivity |].
  destruct (check_extracted_without_manifest seed tempdir) as (e & Hrun & He).
  exists e. split; [| exact He].
  pose proof (main_skipped seed (Err FileNotFoundError) fs skipped Hskipped)
    as Hok.
  assert (Hone : check_archive seed (Err FileNotFoundError) fs archive_path
                 = (Checking archive_path
                      :: output (classification_part seed tempdir), Err e)).
  { unfold check_archive. rewrite Hfs, Hrun. reflexivity. }
  unfold main in *. rewrite for_each_app.
  rewrite (io_eta (for_each skipped _ tt)), Hok, bind_ok. cbn [for_each].
  rewrite Hone. reflexivity.
Qed.

Lemma missing_manifest_ends_run_witness :
  main String.leb (Err FileNotFoundError) mixed_disk
    ["none.zip"; "bad.zip"; "a.zip"; "later.zip"]
  = ([Checking "none.zip"; ArchiveNotFound; Checking "bad.zip"; CorruptedZip;
      Checking "a.zip"; UnexpectedKeys ["ZZZZZZZZ"]],
     Err FileNotFoundError).
Proof.
  assert (Hskipped :
            Forall (fun p => mixed_disk p = NoFile
                             \/ mixed_disk p = Archive (Err BadZipFile))
              ["none.zip"; "bad.zip"]).
  { constructor; [left; reflexivity |].
    constructor; [right; reflexivity | constructor]. }
  destruct (missing_manifest_ends_run String.leb mixed_disk
              ["none.zip"; "bad.zip"] "a.zip" extra_key_tree ["later.zip"]
              Hskipped eq_refl)
    as (_ & e & Hmain & He).
  cbn [app] in Hmain. rewrite Hmain, (He true eq_refl). reflexivity.
Defined.

(** C10, as it is worded, fails: here the archive is extracted and the
    manifest is absent, but the exception that ends the run is raised by
    the classification check ([predictions.keys()] on a list), before the
    segmentation check is reached. *)
Lemma classification_raises_before_manifest :
  array_json_disk "a.zip" = Archive (Ok array_json_tree)
  /\ classification_part String.leb array_json_tree = ([], Err AttributeError)
  /\ main String.leb (Err FileNotFoundError) array_json_disk ["a.zip"; "b.zip"]
     = ([Checking "a.zip"], Err AttributeError).
Proof. repeat split. Qed.

(** *** Two runs under different string hashes *)

Lemma filter_none_of {A : Type} (f : A -> bool) (l : list A) :
  Forall (fun x => f x = false) l -> filter f l = [].
Proof.
  induction 1 as [| x l Hx _ IH]; cbn; [reflexivity |]. now rewrite Hx.
Qed.

Lemma same_line_refl (m : msg) : same_line m m.
Proof. destruct m; cbn; auto. Qed.

Lemma same_output_refl (o : list msg) : same_output o o.
Proof.
  induction o as [| m o IH]; constructor; [apply same_line_refl | exact IH].
Qed.

Lemma same_output_app (a1 a2 b1 b2 : list msg) :
  same_output a1 a2 -> same_output b1 b2 -> same_output (a1 ++ b1) (a2 ++ b2).
Proof.
  intros Ha Hb. induction Ha as [| m1 m2 o1 o2 Hm _ IH | c1 c2 o1 o2 Hc Hp _ IH].
  - exact Hb.
  - cbn. now constructor.
  - rewrite <- !app_assoc. now constructor.
Qed.

Lemma same_run_refl {A : Type} (c : io A) : same_run c c.
Proof. split; [apply same_output_refl | reflexivity]. Qed.

Lemma same_run_bind {A B : Type} (c1 c2 : io A) (k1 k2 : A -> io B) :
  same_run c1 c2 -> (forall a, same_run (k1 a) (k2 a)) ->
  same_run (bind c1 k1) (bind c2 k2).
Proof.
  destruct c1 as [o1 r1], c2 as [o2 r2]. unfold same_run at 1. io_simpl.
  intros [Hout <-] Hk. destruct r1 as [a | e].
  - rewrite !bind_ok. destruct (Hk a) as [Hout' Hres].
    unfold same_run. io_simpl. split; [now apply same_output_app | exact Hres].
  - rewrite !bind_err. split; [exact Hout | reflexivity].
Qed.

Lemma same_run_for_each {A S : Type} (xs : list A) (body1 body2 : A -> S -> io S) :
  (forall x s, same_run (body1 x s) (body2 x s)) ->
  forall s, same_run (for_each xs body1 s) (for_each xs body2 s).
Proof.
  intros Hbody. induction xs as [| x xs IH]; intros s; cbn [for_each].
  - apply same_run_refl.
  - apply same_run_bind; [apply Hbody | exact IH].
Qed.

Lemma same_run_report_if (c : bool) (m1 m2 : msg) (flag : bool) :
  same_line m1 m2 -> same_run (report_if c m1 flag) (report_if c m2 flag).
Proof.
  intros Hm. rewrite !report_if_eq. split; [| reflexivity]. io_simpl.
  destruct c; repeat constructor. exact Hm.
Qed.

Lemma iterate_seeds (seed1 seed2 : hash_seed) (s : pyset) :
  Permutation (iterate seed1 s) (iterate seed2 s).
Proof.
  rewrite (iterate_perm seed1 s). symmetry. apply iterate_perm.
Qed.

(** The loop body either prints the lines of its key, whatever the flag
    is, and sets the flag when it prints, or raises before it prints. *)
Lemma check_value_cases (d : dict value) (k : string) (flag : bool) :
  In k (dict_keys d) ->
  Forall (fun m => is_value_line m = true) (value_lines d k)
  /\ (if value_raises d k
      then check_value d k flag = ([], Err UnicodeEncodeError)
      else check_value d k flag
           = (value_lines d k, Ok (nonempty (value_lines d k) || flag))).
Proof.
  intros Hk. apply dict_get_key in Hk as (v & Hget & _).
  unfold value_raises, value_lines, check_value, print_with. rewrite Hget.
  destruct (encodable k);
    destruct v as [| b | n | x | s | l | d']; cbn [isinstance_float isinstance_int
      negb andb as_number];
    try destruct (lt_zero _ || gt_one _);
    (split; [repeat constructor | reflexivity]).
Qed.

Lemma value_lines_are_value_lines (d : dict value) (ks : list string) :
  incl ks (dict_keys d) ->
  Forall (fun m => is_value_line m = true) (flat_map (value_lines d) ks).
Proof.
  intros Hincl. apply Forall_flat_map, Forall_forall. intros k Hk.
  apply (check_value_cases d k false), Hincl, Hk.
Qed.

(** The loop over the keys: it completes with the lines of all keys when
    the body raises on none of them, and raises otherwise, after lines
    about the values of some keys. *)
Lemma check_values_run (d : dict value) (ks : list string) (flag : bool) :
  incl ks (dict_keys d) ->
  if existsb (value_raises d) ks
  then outcome (for_each ks (check_value d) flag) = Err UnicodeEncodeError
       /\ Forall (fun m => is_value_line m = true)
            (output (for_each ks (check_value d) flag))
  else for_each ks (check_value d) flag
       = (flat_map (value_lines d) ks,
          Ok (nonempty (flat_map (value_lines d) ks) || flag)).
Proof.
  revert flag.
  induction ks as [| k ks IH]; intros flag Hincl;
    cbn [for_each flat_map existsb].
  - reflexivity.
  - destruct (check_value_cases d k flag) as [Hlines Hrun];
      [apply Hincl; now left |].
    assert (Hrest : incl ks (dict_keys d))
      by (intros x Hx; apply Hincl; now right).
    destruct (value_raises d k); cbn [orb].
    + rewrite Hrun, bind_err. io_simpl. split; [reflexivity | constructor].
    + rewrite Hrun, bind_ok.
      specialize (IH (nonempty (value_lines d k) || flag) Hrest).
      destruct (existsb (value_raises d) ks).
      * destruct IH as [Hraise Hout]. io_simpl. split; [exact Hraise |].
        apply Forall_app. split; [exact Hlines | exact Hout].
      * rewrite IH. io_simpl. rewrite nonempty_app.
        now destruct (nonempty (value_lines d k)),
                     (nonempty (flat_map (value_lines d) ks)), flag.
Qed.

Lemma check_values_lines (d : dict value) (ks : list string) (flag : bool) :
  incl ks (dict_keys d) ->
  existsb (value_raises d) ks = false ->
  for_each ks (check_value d) flag
  = (flat_map (value_lines d) ks,
     Ok (nonempty (flat_map (value_lines d) ks) || flag)).
Proof.
  intros Hincl Hnone. pose proof (check_values_run d ks flag Hincl) as Hrun.
  now rewrite Hnone in Hrun.
Qed.

Lemma nonempty_perm {A : Type} (l l' : list A) :
  Permutation l l' -> nonempty l = nonempty l'.
Proof.
  intros Hp. destruct l, l'; try reflexivity.
  - now apply Permutation_nil in Hp.
  - symmetry in Hp. now apply Permutation_nil in Hp.
Qed.

Lemma existsb_perm {A : Type} (f : A -> bool) (l l' : list A) :
  Permutation l l' -> existsb f l = existsb f l'.
Proof.
  induction 1 as [| x l l' _ IH | x y l | l l' l'' _ IH1 _ IH2]; cbn.
  - reflexivity.
  - now rewrite IH.
  - now destruct (f x), (f y).
  - now rewrite IH1.
Qed.

Lemma same_line_class (m1 m2 : msg) :
  same_line m1 m2 -> is_value_line m1 = is_value_line m2.
Proof.
  destruct m1, m2; cbn; intros H; try reflexivity; discriminate H.
Qed.

Lemma filter_value_lines (l : list msg) :
  Forall (fun m => is_value_line m = true) l -> filter not_value_line l = [].
Proof.
  intros Hall. apply filter_none_of. eapply Forall_impl; [| exact Hall].
  intros m Hm. unfold not_value_line. now rewrite Hm.
Qed.

Lemma same_output_filter (o1 o2 : list msg) :
  same_output o1 o2 ->
  same_output (filter not_value_line o1) (filter not_value_line o2).
Proof.
  induction 1 as [| m1 m2 o1 o2 Hm _ IH | b1 b2 o1 o2 Hb Hp _ IH].
  - constructor.
  - cbn [filter].
    assert (Hc : not_value_line m1 = not_value_line m2)
      by (unfold not_value_line; now rewrite (same_line_class m1 m2 Hm)).
    rewrite <- Hc. destruct (not_value_line m1); [now constructor | exact IH].
  - rewrite !filter_app, (filter_value_lines b1 Hb).
    rewrite (filter_value_lines b2); [exact IH |].
    eapply Permutation_Forall; eassumption.
Qed.

Lemma same_run_but_for_crash {A : Type} (c1 c2 : io A) :
  same_run c1 c2 -> same_but_for_crash c1 c2.
Proof.
  intros [Hout Hres]. split; [exact Hres | split].
  - now apply same_output_filter.
  - now left.
Qed.

Lemma same_but_for_crash_bind {A B : Type} (c1 c2 : io A) (k1 k2 : A -> io B) :
  same_but_for_crash c1 c2 ->
  (forall a, same_but_for_crash (k1 a) (k2 a)) ->
  same_but_for_crash (bind c1 k1) (bind c2 k2).
Proof.
  destruct c1 as [o1 r1], c2 as [o2 r2]. unfold same_but_for_crash at 1.
  io_simpl. intros (<- & Hfilter & Hout) Hk. destruct r1 as [a | e].
  - rewrite !bind_ok. destruct (Hk a) as (Hres' & Hfilter' & Hout').
    unfold same_but_for_crash. io_simpl. split; [exact Hres' | split].
    + rewrite !filter_app. now apply same_output_app.
    + destruct Hout as [Hout | Hcrash]; [| discriminate].
      destruct Hout' as [Hout' | Hcrash']; [left | now right].
      now apply same_output_app.
  - rewrite !bind_err. unfold same_but_for_crash. io_simpl.
    split; [reflexivity | split; [exact Hfilter |]].
    destruct Hout as [Hout | Hcrash]; [now left | right].
    now inversion Hcrash.
Qed.

Lemma same_but_for_crash_for_each {A S : Type} (xs : list A)
    (body1 body2 : A -> S -> io S) :
  (forall x s, same_but_for_crash (body1 x s) (body2 x s)) ->
  forall s, same_but_for_crash (for_each xs body1 s) (for_each xs body2 s).
Proof.
  intros Hbody. induction xs as [| x xs IH]; intros s; cbn [for_each].
  - apply same_run_but_for_crash, same_run_refl.
  - apply same_but_for_crash_bind; [apply Hbody | exact IH].
Qed.

(** The loop over the keys under two string hashes *)
Lemma check_values_seeds (seed1 seed2 : hash_seed) (d : dict value) (flag : bool) :
  same_but_for_crash
    (for_each (iterate seed1 (set_of (dict_keys d))) (check_value d) flag)
    (for_each (iterate seed2 (set_of (dict_keys d))) (check_value d) flag).
Proof.
  assert (Hincl : forall seed,
             incl (iterate seed (set_of (dict_keys d))) (dict_keys d)).
  { intros seed k Hk. apply (proj1 (iterate_In _ _ _)) in Hk.
    exact (proj1 (set_of_In _ _) Hk). }
  pose proof (check_values_run d _ flag (Hincl seed1)) as Hrun1.
  pose proof (check_values_run d _ flag (Hincl seed2)) as Hrun2.
  rewrite <- (existsb_perm (value_raises d) _ _
                (iterate_seeds seed1 seed2 (set_of (dict_keys d)))) in Hrun2.
  destruct (existsb (value_raises d) (iterate seed1 (set_of (dict_keys d)))).
  - destruct Hrun1 as [Hraise1 Hout1], Hrun2 as [Hraise2 Hout2].
    split; [now rewrite Hraise1, Hraise2 | split; [| now right]].
    rewrite (filter_value_lines _ Hout1), (filter_value_lines _ Hout2).
    constructor.
  - rewrite Hrun1, Hrun2. apply same_run_but_for_crash.
    assert (Hperm : Permutation
              (flat_map (value_lines d) (iterate seed1 (set_of (dict_keys d))))
              (flat_map (value_lines d) (iterate seed2 (set_of (dict_keys d))))).
    { apply Permutation_flat_map, iterate_seeds. }
    split; io_simpl.
    + rewrite <- (app_nil_r (flat_map _ (iterate seed1 _))).
      rewrite <- (app_nil_r (flat_map _ (iterate seed2 _))).
      apply same_block; [| exact Hperm | constructor].
      apply value_lines_are_value_lines, Hincl.
    + now rewrite (nonempty_perm _ _ Hperm).
Qed.

Lemma check_classification_seeds (seed1 seed2 : hash_seed) (tempdir : directory) :
  same_but_for_crash (check_classification seed1 tempdir)
                     (check_classification seed2 tempdir).
Proof.
  unfold check_classification, check_classification_with.
  destruct (negb (is_file _)); [apply same_run_but_for_crash, same_run_refl |].
  destruct (is_dir _); [apply same_run_but_for_crash, same_run_refl |].
  destruct (child tempdir _) as [[f | entries] |];
    try apply same_run_but_for_crash, same_run_refl.
  destruct (json_load f) as [v | e];
    [| apply same_run_but_for_crash, same_run_refl].
  unfold check_predictions.
  destruct v; try apply same_run_but_for_crash, same_run_refl.
  apply same_but_for_crash_bind;
    [| intros; apply same_run_but_for_crash, same_run_refl].
  unfold check_keys_and_values.
  apply same_but_for_crash_bind;
    [apply same_run_but_for_crash, same_run_report_if;
     unfold same_line; apply iterate_seeds
    | intros ?].
  apply same_but_for_crash_bind;
    [apply same_run_but_for_crash, same_run_report_if;
     unfold same_line; apply iterate_seeds
    | intros ?].
  apply check_values_seeds.
Qed.

Lemma check_case_seeds (seed1 seed2 : hash_seed)
    (all_expected_patches : dict (list string)) (tempdir : directory)
    (case : Z) (flag : bool) :
  same_run (check_case seed1 all_expected_patches tempdir case flag)
           (check_case seed2 all_expected_patches tempdir case flag).
Proof.
  unfold check_case.
  destruct (negb (is_dir _)); [apply same_run_refl |].
  destruct (is_file _); [apply same_run_refl |].
  destruct (dict_get _ _); [| apply same_run_refl].
  unfold check_case_folder.
  apply same_run_bind;
    [apply same_run_report_if; unfold same_line; split;
       [reflexivity | apply iterate_seeds] | intros ?].
  apply same_run_bind;
    [apply same_run_report_if; unfold same_line; split;
       [reflexivity | apply iterate_seeds] | intros ?].
  apply same_run_refl.
Qed.

Lemma check_extracted_seeds (seed1 seed2 : hash_seed) (man : manifest)
    (tempdir : directory) :
  same_but_for_crash (check_extracted seed1 man tempdir)
                     (check_extracted seed2 man tempdir).
Proof.
  unfold check_extracted, classification_part, segmentation_part.
  apply same_but_for_crash_bind; [| intros ?].
  { apply same_but_for_crash_bind; [apply check_classification_seeds | intros ?].
    apply same_run_but_for_crash, same_run_refl. }
  apply same_but_for_crash_bind;
    [| intros; apply same_run_but_for_crash, same_run_refl].
  apply same_run_but_for_crash.
  apply same_run_bind; [| intros; apply same_run_refl].
  unfold check_segmentation. destruct man; [| apply same_run_refl].
  apply same_run_for_each. intros. apply check_case_seeds.
Qed.

Lemma main_seeds (seed1 seed2 : hash_seed) (man : manifest)
    (fs : string -> path_state) (argv : list string) :
  same_but_for_crash (main seed1 man fs argv) (main seed2 man fs argv).
Proof.
  unfold main. apply same_but_for_crash_for_each. intros archive_path _.
  unfold check_archive.
  apply same_but_for_crash_bind;
    [apply same_run_but_for_crash, same_run_refl | intros _].
  destruct (fs archive_path) as [| [tempdir | e]];
    try apply same_run_but_for_crash, same_run_refl.
  apply check_extracted_seeds.
Qed.

(** C8, as the script has it: two runs on the same archives, manifest and
    disk end the same way, and they print the same lines, but for what the
    string hash of each run decides: the order of the names that a line
    lists from a set, the order of the lines about the values of the keys
    among themselves, and, when a run ends in the [UnicodeEncodeError] of
    a line about a value that cannot be written, which of those lines were
    written before. *)
Theorem output_fixed_up_to_set_order (seed1 seed2 : hash_seed)
    (man : manifest) (fs : string -> path_state) (argv : list string) :
  outcome (main seed1 man fs argv) = outcome (main seed2 man fs argv)
  /\ same_output
       (filter not_value_line (output (main seed1 man fs argv)))
       (filter not_value_line (output (main seed2 man fs argv)))
  /\ (outcome (main seed1 man fs argv) <> Err UnicodeEncodeError ->
      same_run (main seed1 man fs argv) (main seed2 man fs argv)).
Proof.
  destruct (main_seeds seed1 seed2 man fs argv) as (Hres & Hfilter & Hout).
  split; [exact Hres | split; [exact Hfilter |]].
  intros Hcrash. destruct Hout as [Hout | Hout]; [| contradiction].
  split; [exact Hout | exact Hres].
Qed.

Lemma output_fixed_up_to_set_order_witness :
  same_run (main seed_up (Ok one_patch_manifest) two_missing_disk ["a.zip"])
           (main seed_down (Ok one_patch_manifest) two_missing_disk ["a.zip"]).
Proof.
  assert (Hend : outcome (main seed_up (Ok one_patch_manifest)
                            two_missing_disk ["a.zip"])
                 <> Err UnicodeEncodeError)
    by (vm_compute; discriminate).
  exact (proj2 (proj2 (output_fixed_up_to_set_order seed_up seed_down
                         (Ok one_patch_manifest) two_missing_disk ["a.zip"]))
           Hend).
Defined.

(** C8, as it is worded, fails: the same archive, manifest and disk, and
    two runs whose string hashes differ, list the missing keys in two
    orders. *)
Lemma output_depends_on_string_hash :
  main seed_up (Ok one_patch_manifest) two_missing_disk ["a.zip"]
    = ([Checking "a.zip"; MissingKeys ["FoSJZXMf"; "QWbE525I"];
        CaseFolderMissing "wns_case_01"; CaseFolderMissing "wns_case_02";
        CaseFolderMissing "wns_case_03"; CaseFolderMissing "wns_case_04";
        CaseFolderMissing "wns_case_05"; CaseFolderMissing "wns_case_06"],
       Ok tt)
  /\ main seed_down (Ok one_patch_manifest) two_missing_disk ["a.zip"]
    = ([Checking "a.zip"; MissingKeys ["QWbE525I"; "FoSJZXMf"];
        CaseFolderMissing "wns_case_01"; CaseFolderMissing "wns_case_02";
        CaseFolderMissing "wns_case_03"; CaseFolderMissing "wns_case_04";
        CaseFolderMissing "wns_case_05"; CaseFolderMissing "wns_case_06"],
       Ok tt)
  /\ main seed_up (Ok one_patch_manifest) two_missing_disk ["a.zip"]
     <> main seed_down (Ok one_patch_manifest) two_missing_disk ["a.zip"].
Proof.
  assert (Hup : main seed_up (Ok one_patch_manifest) two_missing_disk ["a.zip"]
    = ([Checking "a.zip"; MissingKeys ["FoSJZXMf"; "QWbE525I"];
        CaseFolderMissing "wns_case_01"; CaseFolderMissing "wns_case_02";
        CaseFolderMissing "wns_case_03"; CaseFolderMissing "wns_case_04";
        CaseFolderMissing "wns_case_05"; CaseFolderMissing "wns_case_06"],
       Ok tt)) by (vm_compute; reflexivity).
  assert (Hdown : main seed_down (Ok one_patch_manifest) two_missing_disk ["a.zip"]
    = ([Checking "a.zip"; MissingKeys ["QWbE525I"; "FoSJZXMf"];
        CaseFolderMissing "wns_case_01"; CaseFolderMissing "wns_case_02";
        CaseFolderMissing "wns_case_03"; CaseFolderMissing "wns_case_04";
        CaseFolderMissing "wns_case_05"; CaseFolderMissing "wns_case_06"],
       Ok tt)) by (vm_compute; reflexivity).
  split; [exact Hup | split; [exact Hdown |]].
  rewrite Hup, Hdown. intros H. discriminate H.
Qed.

(** When a line about a value cannot be written, the lines about values
    that were written before depend on the string hash: the key that is a
    lone surrogate comes last in one order of the keys and first in the
    other. *)
Example value_lines_before_crash_depend_on_hash :
  check_classification seed_up surrogate_tree
  = ([UnexpectedKeys [lone_surrogate]; ValueNotInRange "FoSJZXMf" (VInt 5)],
     Err UnicodeEncodeError)
  /\ check_classification seed_down surrogate_tree
     = ([UnexpectedKeys [lone_surrogate]], Err UnicodeEncodeError).
Proof. split; vm_compute; reflexivity. Qed.

(** ** Further properties of the script *)

(** *** What reaches the output *)

Lemma output_bind_l {A B : Type} (c : io A) (k : A -> io B) :
  incl (output c) (output (bind c k)).
Proof.
  destruct (output_bind c k) as (rest & ->). apply incl_appl, incl_refl.
Qed.

Lemma output_bind_r {A B : Type} (c : io A) (k : A -> io B) (a : A) :
  outcome c = Ok a -> incl (output (k a)) (output (bind c k)).
Proof.
  destruct c as [out r]. io_simpl. intros ->. rewrite bind_ok. io_simpl.
  apply incl_appr, incl_refl.
Qed.

Lemma outcome_bind_ok {A B : Type} (c : io A) (k : A -> io B) (b : B) :
  outcome (bind c k) = Ok b ->
  exists a, outcome c = Ok a /\ outcome (k a) = Ok b.
Proof.
  destruct c as [out [a | e]].
  - rewrite bind_ok. io_simpl. eauto.
  - rewrite bind_err. io_simpl. discriminate.
Qed.

(** When a loop completes, its body has completed on every element, and
    the lines of that turn are lines of the loop. *)
Lemma for_each_turn {A S : Type} (xs : list A) (body : A -> S -> io S)
    (s s' : S) (x : A) :
  outcome (for_each xs body s) = Ok s' -> In x xs ->
  exists s0 s1,
    outcome (body x s0) = Ok s1
    /\ incl (output (body x s0)) (output (for_each xs body s)).
Proof.
  revert s. induction xs as [| y xs IH]; intros s Hrun Hin; [destruct Hin |].
  cbn [for_each] in *.
  apply outcome_bind_ok in Hrun as (s1 & Hy & Hrest).
  destruct Hin as [-> | Hin].
  - exists s, s1. split; [exact Hy | apply output_bind_l].
  - destruct (IH s1 Hrest Hin) as (s0 & s2 & Hx & Hincl).
    exists s0, s2. split; [exact Hx |].
    eapply incl_tran; [exact Hincl | now apply output_bind_r].
Qed.

(** A loop that completes has not raised in any turn. *)
Lemma for_each_raises {A S : Type} (xs : list A) (body : A -> S -> io S)
    (s : S) (x : A) :
  In x xs -> (forall s0, exists e, outcome (body x s0) = Err e) ->
  exists e, outcome (for_each xs body s) = Err e.
Proof.
  intros Hin Hraise.
  destruct (outcome (for_each xs body s)) as [s' |e] eqn:Hrun; [| eauto].
  destruct (for_each_turn xs body s s' x Hrun Hin) as (s0 & s1 & Hx & _).
  destruct (Hraise s0) as (e & He). rewrite He in Hx. discriminate.
Qed.

(** *** The classification check on a JSON object *)

Lemma nonempty_if (c : bool) (m : msg) :
  nonempty (if c then [m] else []) = c.
Proof. now destruct c. Qed.

Lemma iterate_keys (seed : hash_seed) (d : dict value) :
  incl (iterate seed (set_of (dict_keys d))) (dict_keys d).
Proof.
  intros k Hk. apply (proj1 (iterate_In _ _ _)) in Hk.
  exact (proj1 (set_of_In _ _) Hk).
Qed.

(** The checks of the keys always complete; the loop over the keys
    follows with the flag they leave. *)
Lemma check_keys_and_values_eq (seed : hash_seed) (d : dict value)
    (flag : bool) :
  check_keys_and_values seed d flag
  = (keys_lines seed d
       ++ output (for_each (iterate seed (set_of (dict_keys d)))
                    (check_value d) (nonempty (keys_lines seed d) || flag)),
     outcome (for_each (iterate seed (set_of (dict_keys d)))
                (check_value d) (nonempty (keys_lines seed d) || flag))).
Proof.
  unfold check_keys_and_values, keys_lines.
  rewrite !report_if_eq, bind_ok. io_simpl.
  rewrite report_if_eq, bind_ok. io_simpl.
  rewrite nonempty_app, !nonempty_if, app_assoc.
  set (c1 := nonempty (difference expected_keys _)).
  set (c2 := nonempty (difference (set_of _) _)).
  replace (c2 || (c1 || flag)) with (c1 || c2 || flag)
    by (now destruct c1, c2, flag).
  reflexivity.
Qed.

Lemma check_keys_and_values_lines (seed : hash_seed) (d : dict value)
    (flag : bool) :
  existsb (value_raises d) (iterate seed (set_of (dict_keys d))) = false ->
  check_keys_and_values seed d flag
  = (schema_lines seed d, Ok (nonempty (schema_lines seed d) || flag)).
Proof.
  intros Hnone. rewrite check_keys_and_values_eq.
  rewrite (check_values_lines d _ _ (iterate_keys seed d) Hnone). io_simpl.
  unfold schema_lines. rewrite nonempty_app. f_equal. f_equal.
  now destruct (nonempty (keys_lines seed d)), (nonempty (flat_map _ _)), flag.
Qed.

Lemma check_keys_and_values_raises (seed : hash_seed) (d : dict value)
    (flag : bool) :
  existsb (value_raises d) (iterate seed (set_of (dict_keys d))) = true ->
  exists lines,
    check_keys_and_values seed d flag
    = (keys_lines seed d ++ lines, Err UnicodeEncodeError)
    /\ Forall (fun m => is_value_line m = true) lines.
Proof.
  intros Hsome. rewrite check_keys_and_values_eq.
  pose proof (check_values_run d _ (nonempty (keys_lines seed d) || flag)
                (iterate_keys seed d)) as Hrun.
  rewrite Hsome in Hrun. destruct Hrun as [Hraise Hout].
  eexists. split; [rewrite Hraise; reflexivity | exact Hout].
Qed.

(** The loop body raises on a key only when the key cannot be encoded. *)
Lemma value_raises_encodable (d : dict value) (k : string) :
  In k (dict_keys d) -> encodable k = true -> value_raises d k = false.
Proof.
  intros Hk He. apply dict_get_key in Hk as (v & Hget & _).
  unfold value_raises, check_value, print_with. rewrite Hget, He.
  destruct v as [| b | n | x | s | l | d'];
    cbn [isinstance_float isinstance_int negb andb as_number];
    try destruct (lt_zero _ || gt_one _); reflexivity.
Qed.

Lemma value_raises_key (seed : hash_seed) (d : dict value) :
  existsb (value_raises d) (iterate seed (set_of (dict_keys d))) = true ->
  exists k, In k (dict_keys d) /\ encodable k = false.
Proof.
  intros Hsome. apply existsb_exists in Hsome as (k & Hk & Hraises).
  apply iterate_keys in Hk. exists k. split; [exact Hk |].
  destruct (encodable k) eqn:He; [| reflexivity].
  rewrite (value_raises_encodable d k Hk He) in Hraises. discriminate.
Qed.

Lemma value_raises_none (seed : hash_seed) (d : dict value) :
  (forall k, In k (dict_keys d) -> value_raises d k = false) ->
  existsb (value_raises d) (iterate seed (set_of (dict_keys d))) = false.
Proof.
  intros Hnone. apply not_true_iff_false. intros Hsome.
  apply existsb_exists in Hsome as (k & Hk & Hraises).
  apply iterate_keys in Hk. rewrite (Hnone k Hk) in Hraises. discriminate.
Qed.

Lemma value_raises_some (seed : hash_seed) (d : dict value) (k : string) :
  In k (dict_keys d) -> value_raises d k = true ->
  existsb (value_raises d) (iterate seed (set_of (dict_keys d))) = true.
Proof.
  intros Hk Hraises. apply existsb_exists. exists k. split; [| exact Hraises].
  apply iterate_In, set_of_In. exact Hk.
Qed.

Lemma check_auc_lines (d : dict value) (flag : bool) :
  exists lines,
    check_auc roc_auc_score d flag = (lines, Ok (nonempty lines || flag))
    /\ (lines = [] \/ flag = false /\ exists e, lines = [AUCError e]).
Proof.
  unfold check_auc. destruct (auc_guard d flag) eqn:Hguard.
  - destruct (roc_auc_score _ _) as [auc | e].
    + exists []. split; [reflexivity | now left].
    + exists [AUCError e]. split; [reflexivity | right].
      unfold auc_guard in Hguard. apply andb_true_iff in Hguard as [_ Hflag].
      apply negb_true_iff in Hflag. eauto.
  - exists []. split; [reflexivity | now left].
Qed.

Lemma check_classification_dict (seed : hash_seed) (tempdir : directory)
    (f : file) (d : dict value) :
  child tempdir "classification.json" = Some (File f) ->
  json_load f = Ok (VDict d) ->
  existsb (value_raises d) (iterate seed (set_of (dict_keys d))) = false ->
  exists auc_lines,
    check_classification seed tempdir
    = (schema_lines seed d ++ auc_lines,
       Ok (nonempty (schema_lines seed d ++ auc_lines)))
    /\ (auc_lines = []
        \/ schema_lines seed d = [] /\ exists e, auc_lines = [AUCError e]).
Proof.
  intros Hchild Hload Hnone.
  rewrite (check_classification_loaded seed tempdir f d Hchild Hload).
  rewrite (check_keys_and_values_lines seed d false Hnone), bind_ok,
    orb_false_r.
  destruct (check_auc_lines d (nonempty (schema_lines seed d)))
    as (lines & -> & Hlines).
  exists lines. io_simpl. split.
  - now rewrite nonempty_app, orb_comm.
  - destruct Hlines as [-> | (Hflag & e & ->)]; [now left | right].
    split; [| eauto]. now destruct (schema_lines seed d).
Qed.

Lemma check_classification_dict_raises (seed : hash_seed)
    (tempdir : directory) (f : file) (d : dict value) :
  child tempdir "classification.json" = Some (File f) ->
  json_load f = Ok (VDict d) ->
  existsb (value_raises d) (iterate seed (set_of (dict_keys d))) = true ->
  exists lines,
    check_classification seed tempdir
    = (keys_lines seed d ++ lines, Err UnicodeEncodeError)
    /\ Forall (fun m => is_value_line m = true) lines.
Proof.
  intros Hchild Hload Hsome.
  rewrite (check_classification_loaded seed tempdir f d Hchild Hload).
  destruct (check_keys_and_values_raises seed d false Hsome)
    as (lines & -> & Hlines).
  rewrite bind_err. eauto.
Qed.

(** The lines about the keys are printed, whether the check completes or
    not; the lines about the values are all printed when it completes. *)
Lemma keys_lines_printed (seed : hash_seed) (tempdir : directory)
    (f : file) (d : dict value) :
  child tempdir "classification.json" = Some (File f) ->
  json_load f = Ok (VDict d) ->
  incl (keys_lines seed d) (output (check_classification seed tempdir)).
Proof.
  intros Hchild Hload.
  destruct (existsb (value_raises d) (iterate seed (set_of (dict_keys d))))
    eqn:Hraises.
  - destruct (check_classification_dict_raises seed tempdir f d
                Hchild Hload Hraises) as (lines & -> & _).
    io_simpl. apply incl_appl, incl_refl.
  - destruct (check_classification_dict seed tempdir f d
                Hchild Hload Hraises) as (lines & -> & _).
    io_simpl. unfold schema_lines. apply incl_appl, incl_appl, incl_refl.
Qed.

Lemma check_classification_completes (seed : hash_seed) (tempdir : directory)
    (f : file) (d : dict value) (flag : bool) :
  child tempdir "classification.json" = Some (File f) ->
  json_load f = Ok (VDict d) ->
  outcome (check_classification seed tempdir) = Ok flag ->
  existsb (value_raises d) (iterate seed (set_of (dict_keys d))) = false.
Proof.
  intros Hchild Hload Hrun.
  destruct (existsb (value_raises d) (iterate seed (set_of (dict_keys d))))
    eqn:Hraises; [| reflexivity].
  destruct (check_classification_dict_raises seed tempdir f d
              Hchild Hload Hraises) as (lines & Heq & _).
  rewrite Heq in Hrun. io_simpl. discriminate.
Qed.

Lemma schema_lines_printed (seed : hash_seed) (tempdir : directory)
    (f : file) (d : dict value) (flag : bool) :
  child tempdir "classification.json" = Some (File f) ->
  json_load f = Ok (VDict d) ->
  outcome (check_classification seed tempdir) = Ok flag ->
  incl (schema_lines seed d) (output (check_classification seed tempdir)).
Proof.
  intros Hchild Hload Hrun.
  pose proof (check_classification_completes seed tempdir f d flag
                Hchild Hload Hrun) as Hnone.
  destruct (check_classification_dict seed tempdir f d Hchild Hload Hnone)
    as (lines & -> & _).
  io_simpl. apply incl_appl, incl_refl.
Qed.

Lemma classification_part_eq (seed : hash_seed) (tempdir : directory)
    (out : list msg) (flag : bool) :
  check_classification seed tempdir = (out, Ok flag) ->
  classification_part seed tempdir
  = (out ++ (if flag then [] else [ClassificationValid]), Ok flag).
Proof.
  intros Hrun. unfold classification_part. rewrite Hrun, bind_ok.
  now destruct flag.
Qed.

Lemma classification_part_raises (seed : hash_seed) (tempdir : directory)
    (out : list msg) (e : exn) :
  check_classification seed tempdir = (out, Err e) ->
  classification_part seed tempdir = (out, Err e).
Proof.
  intros Hrun. unfold classification_part. now rewrite Hrun, bind_err.
Qed.

Lemma classification_part_outcome (seed : hash_seed) (tempdir : directory) :
  outcome (classification_part seed tempdir)
  = outcome (check_classification seed tempdir).
Proof.
  destruct (check_classification seed tempdir) as [out [flag | e]] eqn:Hrun.
  - now rewrite (classification_part_eq seed tempdir out flag Hrun).
  - now rewrite (classification_part_raises seed tempdir out e Hrun).
Qed.

Lemma nonempty_In {A : Type} (l : list A) (x : A) : In x l -> nonempty l = true.
Proof. destruct l; [intros [] | reflexivity]. Qed.

(** A line of the classification check is a line of the classification
    part; the check, when it completes, has set the flag, and no SUCCESS
    line follows. *)
Lemma classification_part_finding (seed : hash_seed) (tempdir : directory)
    (m : msg) :
  In m (output (check_classification seed tempdir)) ->
  In m (output (classification_part seed tempdir))
  /\ (forall flag,
        outcome (classification_part seed tempdir) = Ok flag -> flag = true)
  /\ ~ In ClassificationValid (output (classification_part seed tempdir)).
Proof.
  intros Hin.
  pose proof (check_classification_tracks seed tempdir) as [Hall Hflag].
  assert (Hfindings : ~ In ClassificationValid
                        (output (check_classification seed tempdir))).
  { intros Hsuccess. rewrite Forall_forall in Hall.
    apply Hall in Hsuccess. discriminate. }
  destruct (check_classification seed tempdir) as [out [flag | e]] eqn:Hrun;
    io_simpl.
  - specialize (Hflag flag eq_refl).
    rewrite (nonempty_In out m Hin) in Hflag. cbn [orb] in Hflag. subst flag.
    rewrite (classification_part_eq seed tempdir out true Hrun). io_simpl.
    rewrite app_nil_r. split; [exact Hin | split; [| exact Hfindings]].
    now intros flag [= <-].
  - rewrite (classification_part_raises seed tempdir out e Hrun). io_simpl.
    split; [exact Hin | split; [| exact Hfindings]].
    intros flag Hok. discriminate Hok.
Qed.

Lemma difference_NoDup (a b : list string) : NoDup a -> NoDup (difference a b).
Proof. apply NoDup_filter. Qed.

Lemma iterate_NoDup (seed : hash_seed) (s : pyset) :
  NoDup s -> NoDup (iterate seed s).
Proof.
  intros Hs. eapply Permutation_NoDup; [| exact Hs].
  symmetry. apply iterate_perm.
Qed.

Lemma set_of_is_set (l : list string) : NoDup (set_of l).
Proof. apply NoDup_nodup. Qed.

(** X2: when the JSON object lacks expected keys, the ERROR of line 70
    is printed and lists, each once, exactly the expected keys that the
    object lacks; the flag is set when the check completes, and no SUCCESS
    line is printed for the classification. *)
Theorem missing_keys_error_lists_missing (seed : hash_seed)
    (tempdir : directory) (f : file) (d : dict value) :
  child tempdir "classification.json" = Some (File f) ->
  json_load f = Ok (VDict d) ->
  (exists k, In k expected_keys /\ ~ In k (dict_keys d)) ->
  exists listed,
    In (MissingKeys listed) (output (classification_part seed tempdir))
    /\ NoDup listed
    /\ (forall k, In k listed <-> In k expected_keys /\ ~ In k (dict_keys d))
    /\ (forall flag,
          outcome (classification_part seed tempdir) = Ok flag -> flag = true)
    /\ ~ In ClassificationValid (output (classification_part seed tempdir)).
Proof.
  intros Hchild Hload (k0 & Hexp & Hmiss).
  exists (iterate seed (difference expected_keys (set_of (dict_keys d)))).
  assert (Hspec : forall k,
            In k (iterate seed (difference expected_keys (set_of (dict_keys d))))
            <-> In k expected_keys /\ ~ In k (dict_keys d)).
  { intros k. rewrite iterate_In, difference_In, set_of_In. reflexivity. }
  assert (Hin : In (MissingKeys
                      (iterate seed
                         (difference expected_keys (set_of (dict_keys d)))))
                   (keys_lines seed d)).
  { unfold keys_lines. apply in_or_app. left.
    rewrite (nonempty_In _ k0); [left; reflexivity |].
    apply difference_In. rewrite set_of_In. split; assumption. }
  apply (keys_lines_printed seed tempdir f d Hchild Hload) in Hin.
  destruct (classification_part_finding seed tempdir _ Hin)
    as (Hout & Hflag & Hsuccess).
  split; [exact Hout |]. split; [| split; [exact Hspec | split; assumption]].
  apply iterate_NoDup, difference_NoDup, expected_keys_NoDup.
Qed.

(** X3: when the JSON object holds keys that are not expected, the WARNING
    of line 75 is printed and lists, each once, exactly those keys; the
    flag is set when the check completes, and no SUCCESS line is printed
    for the classification. *)
Theorem unexpected_keys_warning_lists_unexpected (seed : hash_seed)
    (tempdir : directory) (f : file) (d : dict value) :
  child tempdir "classification.json" = Some (File f) ->
  json_load f = Ok (VDict d) ->
  (exists k, In k (dict_keys d) /\ ~ In k expected_keys) ->
  exists listed,
    In (UnexpectedKeys listed) (output (classification_part seed tempdir))
    /\ NoDup listed
    /\ (forall k, In k listed <-> In k (dict_keys d) /\ ~ In k expected_keys)
    /\ (forall flag,
          outcome (classification_part seed tempdir) = Ok flag -> flag = true)
    /\ ~ In ClassificationValid (output (classification_part seed tempdir)).
Proof.
  intros Hchild Hload (k0 & Hkey & Hunexp).
  exists (iterate seed (difference (set_of (dict_keys d)) expected_keys)).
  assert (Hspec : forall k,
            In k (iterate seed (difference (set_of (dict_keys d)) expected_keys))
            <-> In k (dict_keys d) /\ ~ In k expected_keys).
  { intros k. rewrite iterate_In, difference_In, set_of_In. reflexivity. }
  assert (Hin : In (UnexpectedKeys
                      (iterate seed
                         (difference (set_of (dict_keys d)) expected_keys)))
                   (keys_lines seed d)).
  { unfold keys_lines. apply in_or_app. right.
    rewrite (nonempty_In _ k0); [left; reflexivity |].
    apply difference_In. rewrite set_of_In. split; assumption. }
  apply (keys_lines_printed seed tempdir f d Hchild Hload) in Hin.
  destruct (classification_part_finding seed tempdir _ Hin)
    as (Hout & Hflag & Hsuccess).
  split; [exact Hout |]. split; [| split; [exact Hspec | split; assumption]].
  apply iterate_NoDup, difference_NoDup, set_of_is_set.
Qed.

Lemma dict_get_in_keys {A : Type} (d : dict A) (k : string) (v : A) :
  dict_get d k = Some v -> In k (dict_keys d).
Proof.
  induction d as [| [k' v'] d IH]; cbn; [discriminate |].
  destruct (String.eqb_spec k' k) as [-> | Hne]; [now left |].
  intros Hget. right. now apply IH.
Qed.

Lemma value_lines_in_schema (seed : hash_seed) (d : dict value) (k : string)
    (v : value) (m : msg) :
  dict_get d k = Some v -> In m (value_lines d k) -> In m (schema_lines seed d).
Proof.
  intros Hget Hm. unfold schema_lines. apply in_or_app. right.
  apply in_flat_map. exists k. split; [| exact Hm].
  apply iterate_In, set_of_In. exact (dict_get_in_keys d k v Hget).
Qed.

(** The SUCCESS line of the classification is printed with a clear flag. *)
Lemma classification_part_success (seed : hash_seed) (tempdir : directory) :
  In ClassificationValid (output (classification_part seed tempdir)) ->
  outcome (classification_part seed tempdir) = Ok false.
Proof.
  pose proof (check_classification_tracks seed tempdir) as [Hall _].
  rewrite Forall_forall in Hall.
  destruct (check_classification seed tempdir) as [out [flag | e]] eqn:Hrun;
    io_simpl.
  - rewrite (classification_part_eq seed tempdir out flag Hrun). io_simpl.
    intros Hin. apply in_app_or in Hin as [Hin | Hin].
    + apply Hall in Hin. discriminate.
    + destruct flag; [destruct Hin | reflexivity].
  - rewrite (classification_part_raises seed tempdir out e Hrun). io_simpl.
    intros Hin. apply Hall in Hin. discriminate.
Qed.

(** A key whose value gets a line: the line is printed whenever the check
    completes, no SUCCESS line is printed for the classification, and a
    key that cannot be encoded ends the check in [UnicodeEncodeError]. *)
Lemma value_line_reported (seed : hash_seed) (tempdir : directory)
    (f : file) (d : dict value) (k : string) (v : value) (m : msg) :
  child tempdir "classification.json" = Some (File f) ->
  json_load f = Ok (VDict d) ->
  dict_get d k = Some v ->
  check_value d k false
  = (if encodable k then ([m], Ok true) else ([], Err UnicodeEncodeError)) ->
  (forall flag,
      outcome (classification_part seed tempdir) = Ok flag ->
      In m (output (classification_part seed tempdir)) /\ flag = true)
  /\ ~ In ClassificationValid (output (classification_part seed tempdir))
  /\ (encodable k = false ->
      outcome (classification_part seed tempdir) = Err UnicodeEncodeError).
Proof.
  intros Hchild Hload Hget Hline.
  assert (Hk : In k (dict_keys d)) by exact (dict_get_in_keys d k v Hget).
  assert (Hcrash : encodable k = false ->
            outcome (classification_part seed tempdir)
            = Err UnicodeEncodeError).
  { intros He. rewrite classification_part_outcome.
    assert (Hraises : value_raises d k = true).
    { unfold value_raises. now rewrite Hline, He. }
    destruct (check_classification_dict_raises seed tempdir f d Hchild Hload
                (value_raises_some seed d k Hk Hraises)) as (lines & -> & _).
    reflexivity. }
  assert (Hdone : forall flag,
            outcome (classification_part seed tempdir) = Ok flag ->
            In m (output (classification_part seed tempdir)) /\ flag = true).
  { intros flag Hrun.
    destruct (encodable k) eqn:He;
      [| rewrite (Hcrash eq_refl) in Hrun; discriminate Hrun].
    assert (Hin : In m (schema_lines seed d)).
    { apply (value_lines_in_schema seed d k v _ Hget).
      unfold value_lines. rewrite Hline. left. reflexivity. }
    rewrite classification_part_outcome in Hrun.
    apply (schema_lines_printed seed tempdir f d flag Hchild Hload Hrun) in Hin.
    destruct (classification_part_finding seed tempdir _ Hin)
      as (Hout & Hflag & _).
    split; [exact Hout |]. apply Hflag.
    now rewrite classification_part_outcome. }
  split; [exact Hdone | split; [| exact Hcrash]].
  intros Hsuccess. apply classification_part_success in Hsuccess.
  destruct (Hdone false Hsuccess) as [_ Hflag]. discriminate Hflag.
Qed.

(** X4: a value that is no int, float or bool gets the ERROR of line 83
    with its key and its type, and the flag is set, whenever the
    classification check completes; no SUCCESS line is printed for the
    classification; and when the key cannot be encoded for the output,
    the check ends in [UnicodeEncodeError]. *)
Theorem non_numeric_value_is_error (seed : hash_seed) (tempdir : directory)
    (f : file) (d : dict value) (k : string) (v : value) :
  child tempdir "classification.json" = Some (File f) ->
  json_load f = Ok (VDict d) ->
  dict_get d k = Some v ->
  as_number v = None ->
  (forall flag,
      outcome (classification_part seed tempdir) = Ok flag ->
      In (ValueNotFloat k (type_of v))
         (output (classification_part seed tempdir))
      /\ flag = true)
  /\ ~ In ClassificationValid (output (classification_part seed tempdir))
  /\ (encodable k = false ->
      outcome (classification_part seed tempdir) = Err UnicodeEncodeError).
Proof.
  intros Hchild Hload Hget Hnum.
  apply (value_line_reported seed tempdir f d k v _ Hchild Hload Hget).
  unfold check_value, print_with. rewrite Hget.
  destruct v; try discriminate; now destruct (encodable k).
Qed.

(** X5: a numeric value below 0 or above 1 gets the WARNING of line 87 with
    its key and the value, and the flag is set, whenever the
    classification check completes; no SUCCESS line is printed for the
    classification; and when the key cannot be encoded for the output,
    the check ends in [UnicodeEncodeError]. *)
Theorem out_of_range_value_is_warned (seed : hash_seed) (tempdir : directory)
    (f : file) (d : dict value) (k : string) (v : value) (x : number) :
  child tempdir "classification.json" = Some (File f) ->
  json_load f = Ok (VDict d) ->
  dict_get d k = Some v ->
  as_number v = Some x ->
  lt_zero x || gt_one x = true ->
  (forall flag,
      outcome (classification_part seed tempdir) = Ok flag ->
      In (ValueNotInRange k v) (output (classification_part seed tempdir))
      /\ flag = true)
  /\ ~ In ClassificationValid (output (classification_part seed tempdir))
  /\ (encodable k = false ->
      outcome (classification_part seed tempdir) = Err UnicodeEncodeError).
Proof.
  intros Hchild Hload Hget Hnum Hrange.
  apply (value_line_reported seed tempdir f d k v _ Hchild Hload Hget).
  unfold check_value, print_with. rewrite Hget.
  destruct v; try discriminate; cbn in Hnum; injection Hnum as <-;
    cbn [isinstance_float isinstance_int negb andb as_number];
    rewrite Hrange; now destruct (encodable k).
Qed.

(** X6: once [classification.json] is loaded, the classification check
    raises in two ways only.  When the loaded value is no JSON object,
    line 66 raises [AttributeError] before a line is printed.  On an
    object the check completes when every key can be encoded for the
    output; when it does not complete, it ends in the
    [UnicodeEncodeError] of a line about a value, and the object has a
    key that cannot be encoded. *)
Theorem classification_check_raises_in_two_ways (seed : hash_seed)
    (tempdir : directory) (f : file) (v : value) :
  child tempdir "classification.json" = Some (File f) ->
  json_load f = Ok v ->
  (forall d, v = VDict d ->
     (forall k, In k (dict_keys d) -> encodable k = true) ->
     exists out flag, check_classification seed tempdir = (out, Ok flag))
  /\ (forall d e, v = VDict d ->
      outcome (check_classification seed tempdir) = Err e ->
      e = UnicodeEncodeError
      /\ exists k, In k (dict_keys d) /\ encodable k = false)
  /\ ((forall d, v <> VDict d) ->
      check_classification seed tempdir = ([], Err AttributeError)).
Proof.
  intros Hchild Hload. split; [| split].
  - intros d -> Hkeys.
    assert (Hnone : existsb (value_raises d)
                      (iterate seed (set_of (dict_keys d))) = false).
    { apply value_raises_none. intros k Hk.
      exact (value_raises_encodable d k Hk (Hkeys k Hk)). }
    destruct (check_classification_dict seed tempdir f d Hchild Hload Hnone)
      as (lines & Hrun & _). eauto.
  - intros d e -> Hrun.
    destruct (existsb (value_raises d) (iterate seed (set_of (dict_keys d))))
      eqn:Hraises.
    + destruct (check_classification_dict_raises seed tempdir f d
                  Hchild Hload Hraises) as (lines & Heq & _).
      rewrite Heq in Hrun. io_simpl. injection Hrun as <-.
      split; [reflexivity | exact (value_raises_key seed d Hraises)].
    + destruct (check_classification_dict seed tempdir f d
                  Hchild Hload Hraises) as (lines & Heq & _).
      rewrite Heq in Hrun. io_simpl. discriminate Hrun.
  - intros Hother. unfold check_classification, check_classification_with.
    rewrite Hchild. cbn [is_file is_dir negb]. rewrite Hload.
    destruct v; try reflexivity. now destruct (Hother d).
Qed.

(** *** Scores that are not a number *)

Lemma check_value_quiet (d : dict value) (k : string) (v : value) :
  dict_get d k = Some v -> quiet_score v ->
  check_value d k false = ([], Ok false).
Proof.
  intros Hget [Hvalid | ->].
  - exact (check_value_valid d k v false Hget Hvalid).
  - unfold check_value. now rewrite Hget.
Qed.

Lemma value_lines_quiet (d : dict value) (k : string) (v : value) :
  dict_get d k = Some v -> quiet_score v -> value_lines d k = [].
Proof.
  intros Hget Hquiet. unfold value_lines.
  now rewrite (check_value_quiet d k v Hget Hquiet).
Qed.

Lemma value_raises_quiet (seed : hash_seed) (d : dict value) :
  Forall (fun kv => quiet_score (snd kv)) d ->
  existsb (value_raises d) (iterate seed (set_of (dict_keys d))) = false.
Proof.
  intros Hquiet. apply value_raises_none. intros k Hk.
  destruct (dict_get_key d k Hk) as (v & Hget & Hin).
  rewrite Forall_forall in Hquiet. unfold value_raises.
  now rewrite (check_value_quiet d k v Hget (Hquiet (k, v) Hin)).
Qed.

Lemma flat_map_nil {A B : Type} (f : A -> list B) (l : list A) :
  (forall x, In x l -> f x = []) -> flat_map f l = [].
Proof.
  induction l as [| x l IH]; intros Hf; cbn [flat_map]; [reflexivity |].
  rewrite (Hf x) by (left; reflexivity).
  apply IH. intros y Hy. apply Hf. right. exact Hy.
Qed.

Lemma schema_lines_quiet (seed : hash_seed) (d : dict value) :
  Permutation (dict_keys d) expected_keys ->
  Forall (fun kv => quiet_score (snd kv)) d ->
  schema_lines seed d = [].
Proof.
  intros Hkeys Hquiet.
  assert (Hnodup : NoDup (dict_keys d)).
  { eapply Permutation_NoDup; [symmetry; exact Hkeys | apply expected_keys_NoDup]. }
  unfold schema_lines, keys_lines.
  rewrite set_of_NoDup by exact Hnodup.
  rewrite (difference_nil expected_keys), (difference_nil (dict_keys d)).
  - cbn [nonempty app]. apply flat_map_nil. intros k Hk.
    apply (proj1 (iterate_In _ _ _)) in Hk.
    destruct (dict_get_key d k Hk) as (v & Hget & Hin).
    apply (value_lines_quiet d k v Hget).
    rewrite Forall_forall in Hquiet. exact (Hquiet (k, v) Hin).
  - intros k. apply Permutation_in. exact Hkeys.
  - intros k. apply Permutation_in. symmetry. exact Hkeys.
Qed.

(** X7: a NaN score is a float, and both comparisons of line 86 are false
    for it: with exactly the expected keys and every other value within
    [0, 1], the checks of lines 58 to 89 print nothing, the flag stays
    clear and the test of line 92 holds, so the NaN reaches the AUC
    computation unreported. *)
Theorem nan_passes_type_and_range_checks (seed : hash_seed) (d : dict value) :
  Permutation (dict_keys d) expected_keys ->
  Forall (fun kv => quiet_score (snd kv)) d ->
  check_keys_and_values seed d false = ([], Ok false)
  /\ auc_guard d false = true.
Proof.
  intros Hkeys Hquiet. split.
  - rewrite (check_keys_and_values_lines seed d false
               (value_raises_quiet seed d Hquiet)).
    now rewrite (schema_lines_quiet seed d Hkeys Hquiet).
  - unfold auc_guard. rewrite (expected_keys_length d Hkeys). reflexivity.
Qed.

Lemma keys_lines_classes (seed : hash_seed) (d : dict value) :
  Forall (fun m => is_keys_line m || is_value_line m = true)
    (keys_lines seed d).
Proof.
  unfold keys_lines. apply Forall_app. split.
  - destruct (nonempty (difference expected_keys _));
      [apply Forall_cons; [reflexivity | apply Forall_nil] | apply Forall_nil].
  - destruct (nonempty (difference (set_of _) _));
      [apply Forall_cons; [reflexivity | apply Forall_nil] | apply Forall_nil].
Qed.

Lemma value_lines_classes (lines : list msg) :
  Forall (fun m => is_value_line m = true) lines ->
  Forall (fun m => is_keys_line m || is_value_line m = true) lines.
Proof.
  apply Forall_impl. intros m Hm. rewrite Hm. apply orb_true_r.
Qed.

Lemma schema_lines_classes (seed : hash_seed) (d : dict value) :
  Forall (fun m => is_keys_line m || is_value_line m = true)
    (schema_lines seed d).
Proof.
  unfold schema_lines.
  apply Forall_app. split; [apply keys_lines_classes |].
  apply value_lines_classes, value_lines_are_value_lines, iterate_keys.
Qed.

(** The lines of the check on a JSON object on which a line about a value
    cannot be written *)
Lemma raising_lines_classes (seed : hash_seed) (d : dict value)
    (lines : list msg) :
  Forall (fun m => is_value_line m = true) lines ->
  Forall (fun m => is_keys_line m || is_value_line m = true)
    (keys_lines seed d ++ lines).
Proof.
  intros Hlines. apply Forall_app.
  split; [apply keys_lines_classes | now apply value_lines_classes].
Qed.

(** X9: the AUC computation is tried only while the flag is clear, so its
    ERROR (line 98) is never printed beside another line of the
    classification check: when it is printed, it is the whole output of
    the check. *)
Theorem auc_error_stands_alone (seed : hash_seed) (tempdir : directory)
    (e : exn) :
  In (AUCError e) (output (check_classification seed tempdir)) ->
  check_classification seed tempdir = ([AUCError e], Ok true).
Proof.
  intros Hin.
  destruct (child tempdir "classification.json") as [[f | entries] |] eqn:Hchild.
  - destruct (json_load f) as [v | ex] eqn:Hload.
    + destruct v as [| b | n | x | s | l | d];
        try (unfold check_classification, check_classification_with in Hin; rewrite Hchild in Hin;
             cbn [is_file is_dir negb] in Hin; rewrite Hload in Hin;
             destruct Hin).
      destruct (existsb (value_raises d)
                  (iterate seed (set_of (dict_keys d)))) eqn:Hraises.
      { destruct (check_classification_dict_raises seed tempdir f d
                    Hchild Hload Hraises) as (lines & Hrun & Hlines).
        rewrite Hrun in Hin. io_simpl.
        pose proof (raising_lines_classes seed d lines Hlines) as Hall.
        rewrite Forall_forall in Hall. apply Hall in Hin. discriminate. }
      destruct (check_classification_dict seed tempdir f d Hchild Hload
                  Hraises) as (lines & Hrun & Hlines).
      rewrite Hrun in Hin |- *. io_simpl.
      destruct Hlines as [-> | (Hschema & e' & ->)].
      * rewrite app_nil_r in Hin.
        pose proof (schema_lines_classes seed d) as Hall.
        rewrite Forall_forall in Hall. apply Hall in Hin. discriminate.
      * rewrite Hschema in Hin |- *. destruct Hin as [[= ->] | []].
        reflexivity.
    + unfold check_classification, check_classification_with in Hin. rewrite Hchild in Hin.
      cbn [is_file is_dir negb] in Hin. rewrite Hload in Hin.
      destruct ex; cbn in Hin; try destruct Hin as [Hin | []];
        try discriminate; destruct Hin.
  - unfold check_classification, check_classification_with in Hin. rewrite Hchild in Hin.
    cbn in Hin. destruct Hin as [Hin | []]. discriminate.
  - unfold check_classification, check_classification_with in Hin. rewrite Hchild in Hin.
    cbn in Hin. destruct Hin as [Hin | []]. discriminate.
Qed.

Lemma scores_of_nan (l : list value) :
  In (VFloat NaN) l -> scores_of l = None.
Proof.
  induction l as [| v l IH]; [intros [] |].
  intros [-> | Hin]; cbn [scores_of].
  - reflexivity.
  - rewrite (IH Hin). now destruct (score_of v).
Qed.

Lemma roc_auc_score_not_finite (y_true : list Z) (y_score : list value) :
  scores_of y_score = None -> roc_auc_score y_true y_score = Err ValueError.
Proof.
  intros Hscores. unfold roc_auc_score. rewrite Hscores.
  now destruct (negb _).
Qed.

Lemma dict_get_in_values {A : Type} (d : dict A) (k : string) (v : A) :
  dict_get d k = Some v -> In v (dict_values d).
Proof.
  induction d as [| [k' v'] d IH]; cbn; [discriminate |].
  destruct (String.eqb k' k); [intros [= ->]; now left |].
  intros Hget. right. now apply IH.
Qed.

(** X8: with exactly the expected keys, one of them with the score NaN and
    every other value within [0, 1], [roc_auc_score] rejects the scores:
    the ERROR of line 98 is the only line of the classification part, and
    no SUCCESS line is printed for the classification. *)
Theorem nan_score_fails_auc (seed : hash_seed) (tempdir : directory)
    (f : file) (d : dict value) (k : string) :
  child tempdir "classification.json" = Some (File f) ->
  json_load f = Ok (VDict d) ->
  Permutation (dict_keys d) expected_keys ->
  Forall (fun kv => quiet_score (snd kv)) d ->
  dict_get d k = Some (VFloat NaN) ->
  classification_part seed tempdir = ([AUCError ValueError], Ok true).
Proof.
  intros Hchild Hload Hkeys Hquiet Hnan.
  assert (Hrun : check_classification seed tempdir
                 = ([AUCError ValueError], Ok true)).
  { rewrite (check_classification_loaded seed tempdir f d Hchild Hload).
    rewrite (check_keys_and_values_lines seed d false
               (value_raises_quiet seed d Hquiet)).
    rewrite (schema_lines_quiet seed d Hkeys Hquiet), bind_ok. io_simpl.
    cbn [nonempty orb]. unfold check_auc, auc_guard.
    rewrite (expected_keys_length d Hkeys). cbn [Nat.ltb Nat.leb negb andb].
    rewrite roc_auc_score_not_finite; [reflexivity |].
    apply scores_of_nan. exact (dict_get_in_values d k _ Hnan). }
  now rewrite (classification_part_eq seed tempdir _ _ Hrun).
Qed.

(** *** Archives that are not found *)


(** *** The SUCCESS lines *)

Lemma nonempty_false {A : Type} (l : list A) : nonempty l = false -> l = [].
Proof. destruct l; [reflexivity | discriminate]. Qed.

Lemma classification_part_clear (seed : hash_seed) (tempdir : directory) :
  outcome (classification_part seed tempdir) = Ok false ->
  classification_part seed tempdir = ([ClassificationValid], Ok false).
Proof.
  destruct (check_classification seed tempdir) as [out [flag | e]] eqn:Hrun.
  - rewrite (classification_part_eq seed tempdir out flag Hrun). io_simpl.
    intros [= ->].
    destruct (check_classification_tracks seed tempdir) as [_ Hflag].
    rewrite Hrun in Hflag. io_simpl. specialize (Hflag false eq_refl).
    rewrite orb_false_r in Hflag. symmetry in Hflag.
    now rewrite (nonempty_false out Hflag).
  - unfold classification_part. rewrite Hrun, bind_err. io_simpl. discriminate.
Qed.

Lemma segmentation_part_eq (seed : hash_seed) (man : manifest)
    (tempdir : directory) (out : list msg) (flag : bool) :
  check_segmentation seed man tempdir = (out, Ok flag) ->
  segmentation_part seed man tempdir
  = (out ++ (if flag then [] else [SegmentationValid]), Ok flag).
Proof.
  intros Hrun. unfold segmentation_part. rewrite Hrun, bind_ok.
  now destruct flag.
Qed.

Lemma segmentation_part_clear (seed : hash_seed) (man : manifest)
    (tempdir : directory) :
  outcome (segmentation_part seed man tempdir) = Ok false ->
  segmentation_part seed man tempdir = ([SegmentationValid], Ok false).
Proof.
  destruct (check_segmentation seed man tempdir) as [out [flag | e]] eqn:Hrun.
  - rewrite (segmentation_part_eq seed man tempdir out flag Hrun). io_simpl.
    intros [= ->].
    destruct (check_segmentation_tracks seed man tempdir) as [_ Hflag].
    rewrite Hrun in Hflag. io_simpl. specialize (Hflag false eq_refl).
    rewrite orb_false_r in Hflag. symmetry in Hflag.
    now rewrite (nonempty_false out Hflag).
  - unfold segmentation_part. rewrite Hrun, bind_err. io_simpl. discriminate.
Qed.

(** What the classification part prints: findings, and its SUCCESS line. *)
Lemma classification_part_prints (P : msg -> Prop) (seed : hash_seed)
    (tempdir : directory) :
  (forall m, is_finding m = true -> P m) -> P ClassificationValid ->
  Forall P (output (classification_part seed tempdir)).
Proof.
  intros Hfinding Hsuccess. unfold classification_part. apply printed_bind.
  - eapply Forall_impl; [exact Hfinding |].
    apply (check_classification_tracks seed tempdir).
  - intros flag. apply printed_bind; [| constructor].
    destruct flag; repeat constructor. exact Hsuccess.
Qed.

(** X10: the line that calls the submission completely valid is printed
    only for an archive without any finding: when it is printed, the
    output for the archive consists of the three SUCCESS lines. *)
Theorem overall_success_means_no_finding (seed : hash_seed) (man : manifest)
    (tempdir : directory) :
  In SubmissionValid (output (check_extracted seed man tempdir)) ->
  check_extracted seed man tempdir
  = ([ClassificationValid; SegmentationValid; SubmissionValid], Ok tt).
Proof.
  intros Hin.
  assert (Hc : Forall (fun m => m <> SubmissionValid)
                 (output (classification_part seed tempdir))).
  { apply classification_part_prints; [| discriminate].
    intros m Hm ->. discriminate. }
  assert (Hs : Forall (fun m => m <> SubmissionValid)
                 (output (segmentation_part seed man tempdir))).
  { eapply Forall_impl; [| apply segmentation_part_prints].
    intros m Hm ->. discriminate. }
  rewrite Forall_forall in Hc, Hs. unfold check_extracted in *.
  destruct (classification_part seed tempdir) as [o1 [f1 | e1]] eqn:Hcp;
    io_simpl.
  - rewrite bind_ok in Hin |- *. io_simpl.
    destruct (segmentation_part seed man tempdir) as [o2 [f2 | e2]] eqn:Hsp;
      io_simpl.
    + rewrite bind_ok in Hin |- *. io_simpl.
      assert (Hflags : f1 = false /\ f2 = false).
      { apply in_app_or in Hin as [Hin | Hin]; [now apply Hc in Hin |].
        apply in_app_or in Hin as [Hin | Hin]; [now apply Hs in Hin |].
        destruct f1, f2; cbn in Hin; try contradiction. split; reflexivity. }
      destruct Hflags as [-> ->].
      pose proof (classification_part_clear seed tempdir) as Hc1.
      pose proof (segmentation_part_clear seed man tempdir) as Hs1.
      rewrite Hcp in Hc1. rewrite Hsp in Hs1. io_simpl.
      specialize (Hc1 eq_refl). specialize (Hs1 eq_refl).
      injection Hc1 as ->. injection Hs1 as ->. reflexivity.
    + rewrite bind_err in Hin. io_simpl.
      apply in_app_or in Hin as [Hin | Hin];
        [now apply Hc in Hin | now apply Hs in Hin].
  - rewrite bind_err in Hin. io_simpl. now apply Hc in Hin.
Qed.

(** *** The lines of a run *)

Lemma main_cons (seed : hash_seed) (man : manifest) (fs : string -> path_state)
    (archive_path : string) (rest : list string) :
  main seed man fs (archive_path :: rest)
  = (check_archive seed man fs archive_path ;; main seed man fs rest).
Proof.
  unfold main. cbn [for_each]. apply bind_ext. intros []. reflexivity.
Qed.

Lemma filter_none {A : Type} (f : A -> bool) (l : list A) :
  Forall (fun x => f x = false) l -> filter f l = [].
Proof.
  induction 1 as [| x l Hx _ IH]; cbn; [reflexivity |]. now rewrite Hx.
Qed.

Lemma check_extracted_prints (P : msg -> Prop) (seed : hash_seed)
    (man : manifest) (tempdir : directory) :
  (forall m, is_finding m = true -> P m) ->
  (forall m, is_segmentation_line m = true -> P m) ->
  P ClassificationValid -> P SubmissionValid ->
  Forall P (output (check_extracted seed man tempdir)).
Proof.
  intros Hfinding Hsegmentation Hc Hs. unfold check_extracted.
  apply printed_bind; [now apply classification_part_prints | intros f1].
  apply printed_bind.
  - eapply Forall_impl; [exact Hsegmentation | apply segmentation_part_prints].
  - intros f2. destruct (negb f1 && negb f2); repeat constructor. exact Hs.
Qed.

Lemma check_archive_announces (seed : hash_seed) (man : manifest)
    (fs : string -> path_state) (archive_path : string) :
  filter is_checking (output (check_archive seed man fs archive_path))
  = [Checking archive_path].
Proof.
  unfold check_archive, print. rewrite bind_ok. io_simpl.
  cbn [app filter is_checking]. f_equal. apply filter_none.
  destruct (fs archive_path) as [| [tempdir | e]].
  - repeat constructor.
  - apply check_extracted_prints; try reflexivity; intros m Hm;
      destruct m; try discriminate; reflexivity.
  - destruct e; repeat constructor.
Qed.

(** X11: every archive that the run reaches is announced once, in the
    order of the command line: the announcements in the output are those
    of a first part of the arguments, and of all of them when the run
    completes. *)
Theorem one_announcement_per_archive (seed : hash_seed) (man : manifest)
    (fs : string -> path_state) (argv : list string) :
  (exists n, filter is_checking (output (main seed man fs argv))
             = map Checking (firstn n argv))
  /\ (outcome (main seed man fs argv) = Ok tt ->
      filter is_checking (output (main seed man fs argv))
      = map Checking argv).
Proof.
  induction argv as [| p rest [(n & IHn) IHall]].
  - split; [exists 0%nat |]; reflexivity.
  - rewrite main_cons.
    pose proof (check_archive_announces seed man fs p) as Hp.
    destruct (check_archive seed man fs p) as [out [[] | e]]; io_simpl.
    + rewrite bind_ok. io_simpl. rewrite filter_app, Hp. split.
      * exists (S n). cbn [firstn map app]. now rewrite IHn.
      * intros Hok. cbn [map app]. now rewrite (IHall Hok).
    + rewrite bind_err. io_simpl. split; [| discriminate].
      exists 1%nat. rewrite Hp. now destruct rest.
Qed.

Lemma check_classification_reachable (seed : hash_seed) (tempdir : directory) :
  Forall (fun m => is_unreachable_line m = false)
    (output (check_classification seed tempdir)).
Proof.
  destruct (child tempdir "classification.json") as [[f | entries] |] eqn:Hchild.
  - destruct (json_load f) as [v | e] eqn:Hload.
    + destruct v as [| b | n | x | s | l | d];
        try (unfold check_classification, check_classification_with; rewrite Hchild;
             cbn [is_file is_dir negb]; rewrite Hload; constructor).
      destruct (existsb (value_raises d)
                  (iterate seed (set_of (dict_keys d)))) eqn:Hraises.
      { destruct (check_classification_dict_raises seed tempdir f d
                    Hchild Hload Hraises) as (lines & -> & Hlines).
        io_simpl.
        eapply Forall_impl; [| exact (raising_lines_classes seed d lines Hlines)].
        intros m Hm. destruct m; try discriminate; reflexivity. }
      destruct (check_classification_dict seed tempdir f d Hchild Hload
                  Hraises) as (lines & -> & Hlines).
      io_simpl. apply Forall_app. split.
      * eapply Forall_impl; [| apply schema_lines_classes].
        intros m Hm. destruct m; try discriminate; reflexivity.
      * destruct Hlines as [-> | (_ & e & ->)]; repeat constructor.
    + unfold check_classification, check_classification_with. rewrite Hchild.
      cbn [is_file is_dir negb]. rewrite Hload.
      destruct e; repeat constructor.
  - unfold check_classification, check_classification_with. rewrite Hchild. repeat constructor.
  - unfold check_classification, check_classification_with. rewrite Hchild. repeat constructor.
Qed.

Lemma check_case_reachable (seed : hash_seed)
    (all_expected_patches : dict (list string)) (tempdir : directory)
    (case : Z) (flag : bool) :
  Forall (fun m => is_unreachable_line m = false)
    (output (check_case seed all_expected_patches tempdir case flag)).
Proof.
  unfold check_case.
  destruct (child tempdir _) as [[f | entries] |]; cbn [is_dir is_file negb];
    try (repeat constructor).
  destruct (dict_get all_expected_patches (str case)) as [expected |];
    [| constructor].
  apply check_case_folder_prints; try reflexivity.
  intros m Hm. destruct m; try discriminate; reflexivity.
Qed.

(** X12: two lines of the script are never printed, whatever the archives
    are: the ERROR that [classification.json] is a directory (line 40),
    whose test comes after the test that it is no regular file, and the
    ERROR that a case folder is a file (line 123), whose test comes after
    the test that it is no directory. *)
Theorem unreachable_lines_never_printed (seed : hash_seed) (man : manifest)
    (fs : string -> path_state) (argv : list string) :
  Forall (fun m => is_unreachable_line m = false)
    (output (main seed man fs argv)).
Proof.
  unfold main. apply printed_for_each. intros archive_path _.
  unfold check_archive. apply printed_bind; [repeat constructor | intros _].
  destruct (fs archive_path) as [| [tempdir | e]].
  - repeat constructor.
  - unfold check_extracted, classification_part, segmentation_part.
    apply printed_bind; [| intros f1].
    { apply printed_bind; [apply check_classification_reachable | intros f].
      apply printed_bind; [| constructor]. destruct f; repeat constructor. }
    apply printed_bind; [| intros f2].
    { apply printed_bind; [| intros f].
      - unfold check_segmentation. destruct man as [m | e]; [| constructor].
        apply printed_for_each. intros. apply check_case_reachable.
      - apply printed_bind; [| constructor]. destruct f; repeat constructor. }
    destruct (negb f1 && negb f2); repeat constructor.
  - destruct e; repeat constructor.
Qed.

(** *** The segmentation check, case by case and patch by patch *)

Lemma In_cases (case : Z) : 1 <= case <= 6 -> In case (range 1 (1 + cases)).
Proof.
  intros Hcase. change (range 1 (1 + cases)) with [1; 2; 3; 4; 5; 6].
  cbn. lia.
Qed.

Lemma check_segmentation_turn (seed : hash_seed)
    (all_expected_patches : dict (list string)) (tempdir : directory)
    (case : Z) (flag : bool) :
  outcome (check_segmentation seed (Ok all_expected_patches) tempdir) = Ok flag ->
  1 <= case <= 6 ->
  exists s0 s1,
    outcome (check_case seed all_expected_patches tempdir case s0) = Ok s1
    /\ incl (output (check_case seed all_expected_patches tempdir case s0))
            (output (check_segmentation seed (Ok all_expected_patches) tempdir)).
Proof.
  unfold check_segmentation. intros Hrun Hcase.
  exact (for_each_turn _ _ false flag case Hrun (In_cases case Hcase)).
Qed.

Lemma check_segmentation_flag (seed : hash_seed) (man : manifest)
    (tempdir : directory) (flag : bool) (m : msg) :
  outcome (check_segmentation seed man tempdir) = Ok flag ->
  In m (output (check_segmentation seed man tempdir)) ->
  flag = true.
Proof.
  intros Hrun Hin.
  destruct (check_segmentation_tracks seed man tempdir) as [_ Hflag].
  rewrite (Hflag flag Hrun), (nonempty_In _ m Hin). reflexivity.
Qed.

Lemma check_case_present (seed : hash_seed)
    (all_expected_patches : dict (list string)) (tempdir : directory)
    (case : Z) (flag : bool) (entries : list (string * node)) :
  child tempdir ("wns_case_" ++ format_02d case)%string = Some (Dir entries) ->
  check_case seed all_expected_patches tempdir case flag
  = match dict_get all_expected_patches (str case) with
    | None => raise KeyError
    | Some expected =>
        check_case_folder seed ("wns_case_" ++ format_02d case)%string
          (Some (Dir entries)) expected flag
    end.
Proof. intros Hchild. unfold check_case. now rewrite Hchild. Qed.

(** When the segmentation check completes, every PNG entry of every case
    folder that is there has been checked, and its lines are in the
    output. *)
Lemma patch_turn (seed : hash_seed)
    (all_expected_patches : dict (list string)) (tempdir : directory)
    (case : Z) (entries : list (string * node)) (patch : string * node)
    (flag : bool) :
  outcome (check_segmentation seed (Ok all_expected_patches) tempdir) = Ok flag ->
  1 <= case <= 6 ->
  child tempdir ("wns_case_" ++ format_02d case)%string = Some (Dir entries) ->
  In patch (glob_png (Some (Dir entries))) ->
  exists s0 s1,
    outcome (check_patch patch s0) = Ok s1
    /\ incl (output (check_patch patch s0))
            (output (check_segmentation seed (Ok all_expected_patches) tempdir)).
Proof.
  intros Hrun Hcase Hchild Hpatch.
  destruct (check_segmentation_turn seed _ tempdir case flag Hrun Hcase)
    as (s0 & s1 & Hturn & Hincl).
  rewrite (check_case_present seed _ tempdir case s0 entries Hchild)
    in Hturn, Hincl.
  destruct (dict_get all_expected_patches (str case)) as [expected |];
    [| discriminate].
  rewrite check_case_folder_eq in Hturn, Hincl. cbn zeta in Hturn, Hincl.
  rewrite outcome_pair in Hturn. rewrite output_pair in Hincl.
  destruct (for_each_turn _ _ _ s1 patch Hturn Hpatch)
    as (p0 & p1 & Hp & Hpincl).
  exists p0, p1. split; [exact Hp |].
  eapply incl_tran; [exact Hpincl |].
  eapply incl_tran; [| exact Hincl].
  apply incl_appr, incl_appr, incl_refl.
Qed.

(** X13: when the folder of one of the six cases is missing, the
    segmentation check, if it completes, has printed the WARNING of line
    120 for the case and set its flag; in no case is the SUCCESS line of
    the segmentation printed. *)
Theorem missing_case_folder_blocks_success (seed : hash_seed)
    (all_expected_patches : dict (list string)) (tempdir : directory)
    (case : Z) :
  1 <= case <= 6 ->
  is_dir (child tempdir ("wns_case_" ++ format_02d case)%string) = false ->
  (forall flag,
      outcome (check_segmentation seed (Ok all_expected_patches) tempdir)
        = Ok flag ->
      In (CaseFolderMissing ("wns_case_" ++ format_02d case)%string)
         (output (check_segmentation seed (Ok all_expected_patches) tempdir))
      /\ flag = true)
  /\ ~ In SegmentationValid
         (output (segmentation_part seed (Ok all_expected_patches) tempdir)).
Proof.
  intros Hcase Hdir.
  assert (Hwarn : forall flag,
      outcome (check_segmentation seed (Ok all_expected_patches) tempdir)
        = Ok flag ->
      In (CaseFolderMissing ("wns_case_" ++ format_02d case)%string)
         (output (check_segmentation seed (Ok all_expected_patches) tempdir))
      /\ flag = true).
  { intros flag Hrun.
    destruct (check_segmentation_turn seed _ tempdir case flag Hrun Hcase)
      as (s0 & s1 & _ & Hincl).
    unfold check_case in Hincl. rewrite Hdir in Hincl.
    assert (Hin : In (CaseFolderMissing ("wns_case_" ++ format_02d case)%string)
                    (output (check_segmentation seed (Ok all_expected_patches)
                               tempdir))).
    { apply Hincl. left. reflexivity. }
    split; [exact Hin |].
    exact (check_segmentation_flag seed _ tempdir flag _ Hrun Hin). }
  split; [exact Hwarn |].
  intros Hsuccess.
  assert (Hfindings : ~ In SegmentationValid
            (output (check_segmentation seed (Ok all_expected_patches) tempdir))).
  { intros Hin.
    destruct (check_segmentation_tracks seed (Ok all_expected_patches) tempdir)
      as [Hall _].
    rewrite Forall_forall in Hall. apply Hall in Hin. discriminate. }
  destruct (check_segmentation seed (Ok all_expected_patches) tempdir)
    as [out [flag | e]] eqn:Hrun.
  - rewrite (segmentation_part_eq seed _ tempdir out flag Hrun) in Hsuccess.
    io_simpl. destruct (Hwarn flag eq_refl) as [_ ->].
    rewrite app_nil_r in Hsuccess. exact (Hfindings Hsuccess).
  - unfold segmentation_part in Hsuccess. rewrite Hrun, bind_err in Hsuccess.
    io_simpl. exact (Hfindings Hsuccess).
Qed.

Lemma dtype_eqb_eq (a b : dtype) : dtype_eqb a b = true <-> a = b.
Proof. destruct a, b; cbn; split; congruence. Qed.

Lemma shape_eqb_eq (a b : list Z) : shape_eqb a b = true <-> a = b.
Proof.
  revert b. induction a as [| x a IH]; intros [| y b]; cbn;
    try (split; congruence).
  rewrite andb_true_iff, Z.eqb_eq, IH. split.
  - intros [-> ->]. reflexivity.
  - intros [= -> ->]. split; reflexivity.
Qed.

Lemma check_patch_opened (patch : string * node) (a : ndarray) (flag : bool) :
  open_image (snd patch) = Ok a ->
  output (check_patch patch flag)
  = (if negb (dtype_eqb (arr_dtype a) uint8)
     then [PatchDtype (fst patch) (arr_dtype a)] else [])
    ++ (if negb (shape_eqb (arr_shape a) expected_shape)
        then [PatchShape (fst patch) (arr_shape a)] else [])
    ++ (if nonempty (difference_Z (np_unique a) expected_classes)
        then [PatchClasses (fst patch)
                (difference_Z (np_unique a) expected_classes)]
        else []).
Proof.
  intros Hopen. unfold check_patch. rewrite Hopen.
  rewrite !report_if_eq, bind_ok. io_simpl.
  rewrite report_if_eq, bind_ok. io_simpl.
  rewrite report_if_eq. io_simpl. reflexivity.
Qed.

(** X14: when the segmentation check completes, every patch of a case
    folder that decodes to an array of another element type than uint8 has
    got the ERROR of line 148 with that type, and every patch of another
    shape than (3000, 3000) the ERROR of line 151 with that shape; either
    one sets the flag. *)
Theorem wrong_dtype_or_shape_is_error (seed : hash_seed)
    (all_expected_patches : dict (list string)) (tempdir : directory)
    (case : Z) (entries : list (string * node)) (name : string) (n : node)
    (a : ndarray) (flag : bool) :
  outcome (check_segmentation seed (Ok all_expected_patches) tempdir) = Ok flag ->
  1 <= case <= 6 ->
  child tempdir ("wns_case_" ++ format_02d case)%string = Some (Dir entries) ->
  In (name, n) (glob_png (Some (Dir entries))) ->
  open_image n = Ok a ->
  (arr_dtype a <> uint8 ->
   In (PatchDtype name (arr_dtype a))
      (output (check_segmentation seed (Ok all_expected_patches) tempdir))
   /\ flag = true)
  /\ (arr_shape a <> [3000; 3000] ->
      In (PatchShape name (arr_shape a))
         (output (check_segmentation seed (Ok all_expected_patches) tempdir))
      /\ flag = true).
Proof.
  intros Hrun Hcase Hchild Hpatch Hopen.
  destruct (patch_turn seed _ tempdir case entries (name, n) flag
              Hrun Hcase Hchild Hpatch) as (s0 & s1 & _ & Hincl).
  rewrite (check_patch_opened (name, n) a s0 Hopen) in Hincl. cbn [fst] in Hincl.
  split.
  - intros Hdtype.
    assert (Hin : In (PatchDtype name (arr_dtype a))
                    (output (check_segmentation seed (Ok all_expected_patches)
                               tempdir))).
    { apply Hincl. apply in_or_app. left.
      destruct (dtype_eqb (arr_dtype a) uint8) eqn:E;
        [apply dtype_eqb_eq in E; contradiction | left; reflexivity]. }
    split; [exact Hin |].
    exact (check_segmentation_flag seed _ tempdir flag _ Hrun Hin).
  - intros Hshape.
    assert (Hin : In (PatchShape name (arr_shape a))
                    (output (check_segmentation seed (Ok all_expected_patches)
                               tempdir))).
    { apply Hincl. apply in_or_app. right. apply in_or_app. left.
      destruct (shape_eqb (arr_shape a) expected_shape) eqn:E;
        [apply shape_eqb_eq in E; contradiction | left; reflexivity]. }
    split; [exact Hin |].
    exact (check_segmentation_flag seed _ tempdir flag _ Hrun Hin).
Qed.

(** *** The labels of a patch *)

Lemma insert_unique_In_iff (v x : Z) (l : list Z) :
  In v (insert_unique x l) <-> v = x \/ In v l.
Proof.
  split; [apply insert_unique_In |].
  induction l as [| y l IH]; cbn.
  - intros [-> | []]. now left.
  - destruct (x <? y) eqn:Hlt; [cbn; intuition auto |].
    destruct (x =? y) eqn:Heq; cbn.
    + apply Z.eqb_eq in Heq. subst y. intuition auto.
    + intuition auto.
Qed.

Lemma np_unique_In_iff (a : ndarray) (v : Z) :
  In v (np_unique a) <-> In v (arr_pixels a).
Proof.
  unfold np_unique. induction (arr_pixels a) as [| x l IH]; cbn; [tauto |].
  rewrite insert_unique_In_iff, IH. intuition auto.
Qed.

Lemma insert_unique_sorted (x : Z) (l : list Z) :
  StronglySorted Z.lt l -> StronglySorted Z.lt (insert_unique x l).
Proof.
  induction 1 as [| y l Hsorted IH Hall]; cbn.
  - repeat constructor.
  - destruct (x <? y) eqn:Hlt.
    + apply Z.ltb_lt in Hlt. constructor; [now constructor |].
      constructor; [exact Hlt |].
      eapply Forall_impl; [| exact Hall]. intros z Hz. lia.
    + destruct (x =? y) eqn:Heq; [now constructor |].
      apply Z.ltb_ge in Hlt. apply Z.eqb_neq in Heq.
      constructor; [exact IH |].
      apply Forall_forall. intros z Hz.
      apply insert_unique_In in Hz as [-> | Hz]; [lia |].
      rewrite Forall_forall in Hall. now apply Hall.
Qed.

(** [np.unique] gives the elements in strictly ascending order. *)
Lemma np_unique_sorted (a : ndarray) : StronglySorted Z.lt (np_unique a).
Proof.
  unfold np_unique. induction (arr_pixels a) as [| x l IH]; cbn.
  - constructor.
  - now apply insert_unique_sorted.
Qed.

Lemma sorted_NoDup (l : list Z) : StronglySorted Z.lt l -> NoDup l.
Proof.
  induction 1 as [| x l _ IH Hall]; constructor; [| exact IH].
  intros Hin. rewrite Forall_forall in Hall. apply Hall in Hin. lia.
Qed.

Lemma expected_class_iff (v : Z) :
  existsb (Z.eqb v) expected_classes = true <-> 1 <= v <= 10.
Proof.
  split; [| apply expected_class].
  intros Hv. apply existsb_exists in Hv as (x & Hx & Heq).
  apply Z.eqb_eq in Heq. subst x.
  change expected_classes with [1; 2; 3; 4; 5; 6; 7; 8; 9; 10] in Hx.
  cbn in Hx. lia.
Qed.

Lemma unexpected_classes_spec (a : ndarray) (v : Z) :
  In v (difference_Z (np_unique a) expected_classes)
  <-> In v (arr_pixels a) /\ ~ 1 <= v <= 10.
Proof.
  unfold difference_Z.
  rewrite filter_In, np_unique_In_iff, negb_true_iff, <- not_true_iff_false.
  now rewrite expected_class_iff.
Qed.

(** X15: when the segmentation check completes, a patch with a pixel
    outside the labels 1 to 10 has got the WARNING of line 155, which
    lists, each once, exactly the pixel values of the patch that are
    outside 1 to 10; the flag is set. *)
Theorem unexpected_classes_warning_lists_values (seed : hash_seed)
    (all_expected_patches : dict (list string)) (tempdir : directory)
    (case : Z) (entries : list (string * node)) (name : string) (n : node)
    (a : ndarray) (flag : bool) :
  outcome (check_segmentation seed (Ok all_expected_patches) tempdir) = Ok flag ->
  1 <= case <= 6 ->
  child tempdir ("wns_case_" ++ format_02d case)%string = Some (Dir entries) ->
  In (name, n) (glob_png (Some (Dir entries))) ->
  open_image n = Ok a ->
  (exists v, In v (arr_pixels a) /\ ~ 1 <= v <= 10) ->
  exists listed,
    In (PatchClasses name listed)
       (output (check_segmentation seed (Ok all_expected_patches) tempdir))
    /\ NoDup listed
    /\ (forall v, In v listed <-> In v (arr_pixels a) /\ ~ 1 <= v <= 10)
    /\ flag = true.
Proof.
  intros Hrun Hcase Hchild Hpatch Hopen (v0 & Hv0).
  destruct (patch_turn seed _ tempdir case entries (name, n) flag
              Hrun Hcase Hchild Hpatch) as (s0 & s1 & _ & Hincl).
  rewrite (check_patch_opened (name, n) a s0 Hopen) in Hincl. cbn [fst] in Hincl.
  exists (difference_Z (np_unique a) expected_classes).
  assert (Hin : In (PatchClasses name
                      (difference_Z (np_unique a) expected_classes))
                  (output (check_segmentation seed (Ok all_expected_patches)
                             tempdir))).
  { apply Hincl. apply in_or_app. right. apply in_or_app. right.
    rewrite (nonempty_In _ v0); [left; reflexivity |].
    apply unexpected_classes_spec. exact Hv0. }
  split; [exact Hin |]. split; [| split].
  - apply NoDup_filter, sorted_NoDup, np_unique_sorted.
  - apply unexpected_classes_spec.
  - exact (check_segmentation_flag seed _ tempdir flag _ Hrun Hin).
Qed.

(** *** Patches that cannot be opened *)

(** X16: when the segmentation check completes, a patch on which opening
    the image raised [PermissionError] or [UnidentifiedImageError] has got
    the ERROR of line 158, and the flag is set. *)
Theorem undecodable_patch_is_error (seed : hash_seed)
    (all_expected_patches : dict (list string)) (tempdir : directory)
    (case : Z) (entries : list (string * node)) (name : string) (n : node)
    (e : exn) (flag : bool) :
  outcome (check_segmentation seed (Ok all_expected_patches) tempdir) = Ok flag ->
  1 <= case <= 6 ->
  child tempdir ("wns_case_" ++ format_02d case)%string = Some (Dir entries) ->
  In (name, n) (glob_png (Some (Dir entries))) ->
  open_image n = Err e ->
  caught_at_patch e = true ->
  In (PatchInvalid name)
     (output (check_segmentation seed (Ok all_expected_patches) tempdir))
  /\ flag = true.
Proof.
  intros Hrun Hcase Hchild Hpatch Hopen Hcaught.
  destruct (patch_turn seed _ tempdir case entries (name, n) flag
              Hrun Hcase Hchild Hpatch) as (s0 & s1 & _ & Hincl).
  unfold check_patch in Hincl. cbn [fst snd] in Hincl.
  rewrite Hopen, Hcaught in Hincl.
  assert (Hin : In (PatchInvalid name)
                  (output (check_segmentation seed (Ok all_expected_patches)
                             tempdir))).
  { apply Hincl. left. reflexivity. }
  split; [exact Hin |].
  exact (check_segmentation_flag seed _ tempdir flag _ Hrun Hin).
Qed.

Lemma check_extracted_raises (seed : hash_seed) (man : manifest)
    (tempdir : directory) (e : exn) :
  outcome (check_segmentation seed man tempdir) = Err e ->
  exists e', outcome (check_extracted seed man tempdir) = Err e'.
Proof.
  intros Hseg. unfold check_extracted.
  destruct (classification_part seed tempdir) as [o1 [f1 | e1]].
  - rewrite bind_ok. io_simpl. unfold segmentation_part.
    destruct (check_segmentation seed man tempdir) as [o2 r2].
    io_simpl. subst r2. rewrite !bind_err. io_simpl. eauto.
  - rewrite bind_err. io_simpl. eauto.
Qed.

Lemma main_raises (seed : hash_seed) (man : manifest)
    (fs : string -> path_state) (archive_path : string) (rest : list string)
    (tempdir : directory) (e : exn) :
  fs archive_path = Archive (Ok tempdir) ->
  outcome (check_extracted seed man tempdir) = Err e ->
  main seed man fs (archive_path :: rest)
  = (Checking archive_path :: output (check_extracted seed man tempdir), Err e).
Proof.
  intros Hfs Hrun. rewrite main_cons. unfold check_archive. rewrite Hfs.
  unfold print. rewrite bind_ok, Hrun, bind_err. reflexivity.
Qed.

Lemma check_segmentation_raises (seed : hash_seed)
    (all_expected_patches : dict (list string)) (tempdir : directory)
    (case : Z) :
  1 <= case <= 6 ->
  (forall s0, exists e,
      outcome (check_case seed all_expected_patches tempdir case s0) = Err e) ->
  exists e,
    outcome (check_segmentation seed (Ok all_expected_patches) tempdir) = Err e.
Proof.
  intros Hcase Hraise. unfold check_segmentation.
  exact (for_each_raises _ _ false case (In_cases case Hcase) Hraise).
Qed.

(** X17: an exception of opening the image of a patch that is neither
    [PermissionError] nor [UnidentifiedImageError] is not caught: the run
    ends while it works on that archive, with the lines printed so far,
    and the archives that follow are not checked. *)
Theorem uncaught_patch_exception_ends_run (seed : hash_seed)
    (all_expected_patches : dict (list string)) (fs : string -> path_state)
    (archive_path : string) (rest : list string) (tempdir : directory)
    (case : Z) (entries : list (string * node)) (name : string) (n : node)
    (e : exn) :
  fs archive_path = Archive (Ok tempdir) ->
  1 <= case <= 6 ->
  child tempdir ("wns_case_" ++ format_02d case)%string = Some (Dir entries) ->
  In (name, n) (glob_png (Some (Dir entries))) ->
  open_image n = Err e ->
  caught_at_patch e = false ->
  exists e',
    main seed (Ok all_expected_patches) fs (archive_path :: rest)
    = (Checking archive_path
         :: output (check_extracted seed (Ok all_expected_patches) tempdir),
       Err e').
Proof.
  intros Hfs Hcase Hchild Hpatch Hopen Hcaught.
  destruct (check_segmentation_raises seed all_expected_patches tempdir case
              Hcase) as (e1 & Hseg).
  { intros s0.
    rewrite (check_case_present seed _ tempdir case s0 entries Hchild).
    destruct (dict_get all_expected_patches (str case)) as [expected |];
      [| exists KeyError; reflexivity].
    rewrite check_case_folder_eq. cbn zeta. rewrite outcome_pair.
    apply (for_each_raises _ _ _ (name, n) Hpatch).
    intros p0. exists e. unfold check_patch. cbn [fst snd].
    now rewrite Hopen, Hcaught. }
  destruct (check_extracted_raises seed _ tempdir e1 Hseg) as (e' & Hrun).
  exists e'. exact (main_raises seed _ fs archive_path rest tempdir e' Hfs Hrun).
Qed.

(** X18: when the manifest has no entry for a case whose folder is there,
    line 127 raises [KeyError], which nothing catches: the run ends while
    it works on that archive, and the archives that follow are not
    checked. *)
Theorem manifest_without_case_ends_run (seed : hash_seed)
    (all_expected_patches : dict (list string)) (fs : string -> path_state)
    (archive_path : string) (rest : list string) (tempdir : directory)
    (case : Z) (entries : list (string * node)) :
  fs archive_path = Archive (Ok tempdir) ->
  1 <= case <= 6 ->
  child tempdir ("wns_case_" ++ format_02d case)%string = Some (Dir entries) ->
  dict_get all_expected_patches (str case) = None ->
  exists e',
    main seed (Ok all_expected_patches) fs (archive_path :: rest)
    = (Checking archive_path
         :: output (check_extracted seed (Ok all_expected_patches) tempdir),
       Err e').
Proof.
  intros Hfs Hcase Hchild Hget.
  destruct (check_segmentation_raises seed all_expected_patches tempdir case
              Hcase) as (e1 & Hseg).
  { intros s0.
    rewrite (check_case_present seed _ tempdir case s0 entries Hchild), Hget.
    exists KeyError. reflexivity. }
  destruct (check_extracted_raises seed _ tempdir e1 Hseg) as (e' & Hrun).
  exists e'. exact (main_raises seed _ fs archive_path rest tempdir e' Hfs Hrun).
Qed.

(** X19: when a case folder lacks expected patches, the ERROR of line 132
    lists, each once, exactly the expected file names for which the folder
    has no PNG entry. *)
Theorem missing_patches_error_lists_missing (seed : hash_seed)
    (case_str : string) (case_path : option node) (expected : list string)
    (flag : bool) :
  (exists name, In name expected
                /\ ~ In name (map fst (glob_png case_path))) ->
  exists listed,
    In (MissingPatches case_str listed)
       (output (check_case_folder seed case_str case_path expected flag))
    /\ NoDup listed
    /\ (forall name,
          In name listed
          <-> In name expected /\ ~ In name (map fst (glob_png case_path))).
Proof.
  intros (name0 & Hexp & Hmiss).
  exists (iterate seed (difference (set_of expected)
                          (set_of (map fst (glob_png case_path))))).
  assert (Hspec : forall name,
            In name (iterate seed (difference (set_of expected)
                                     (set_of (map fst (glob_png case_path)))))
            <-> In name expected /\ ~ In name (map fst (glob_png case_path))).
  { intros name. rewrite iterate_In, difference_In, !set_of_In. reflexivity. }
  split; [| split; [| exact Hspec]].
  - rewrite check_case_folder_eq. cbn zeta. io_simpl.
    apply in_or_app. left.
    rewrite (nonempty_In _ name0); [left; reflexivity |].
    apply difference_In. rewrite !set_of_In. split; assumption.
  - apply iterate_NoDup, difference_NoDup, set_of_is_set.
Qed.

(** *** The further properties on sample inputs *)


Lemma first_key_missing :
  exists k, In k expected_keys /\ ~ In k (dict_keys rest_predictions).
Proof.
  exists "FoSJZXMf". split; [left; reflexivity |].
  intros Hin. apply mem_In in Hin. vm_compute in Hin. discriminate.
Qed.

Lemma missing_keys_error_lists_missing_witness :
  exists listed,
    In (MissingKeys listed)
       (output (classification_part String.leb one_missing_tree))
    /\ NoDup listed
    /\ (forall k, In k listed
                  <-> In k expected_keys /\ ~ In k (dict_keys rest_predictions))
    /\ (forall flag,
          outcome (classification_part String.leb one_missing_tree) = Ok flag ->
          flag = true)
    /\ ~ In ClassificationValid
           (output (classification_part String.leb one_missing_tree)).
Proof.
  exact (missing_keys_error_lists_missing String.leb one_missing_tree _
           rest_predictions eq_refl eq_refl first_key_missing).
Defined.

Lemma extra_key_unexpected :
  exists k, In k (dict_keys (("ZZZZZZZZ", VInt 1) :: good_predictions))
            /\ ~ In k expected_keys.
Proof.
  exists "ZZZZZZZZ". split; [left; reflexivity |].
  intros Hin. apply mem_In in Hin. vm_compute in Hin. discriminate.
Qed.

Lemma unexpected_keys_warning_lists_unexpected_witness :
  exists listed,
    In (UnexpectedKeys listed)
       (output (classification_part String.leb extra_key_tree))
    /\ NoDup listed
    /\ (forall k, In k listed
                  <-> In k (dict_keys (("ZZZZZZZZ", VInt 1) :: good_predictions))
                      /\ ~ In k expected_keys)
    /\ (forall flag,
          outcome (classification_part String.leb extra_key_tree) = Ok flag ->
          flag = true)
    /\ ~ In ClassificationValid
           (output (classification_part String.leb extra_key_tree)).
Proof.
  exact (unexpected_keys_warning_lists_unexpected String.leb extra_key_tree _
           (("ZZZZZZZZ", VInt 1) :: good_predictions) eq_refl eq_refl
           extra_key_unexpected).
Defined.

Lemma non_numeric_value_is_error_witness :
  In (ValueNotFloat "FoSJZXMf" TStr)
     (output (classification_part String.leb string_value_tree))
  /\ ~ In ClassificationValid
         (output (classification_part String.leb string_value_tree)).
Proof.
  assert (Hrun : outcome (classification_part String.leb string_value_tree)
                 = Ok true) by (vm_compute; reflexivity).
  pose proof (non_numeric_value_is_error String.leb string_value_tree _
                string_value_predictions "FoSJZXMf" (VStr "high")
                eq_refl eq_refl eq_refl eq_refl) as (Hdone & Hsuccess & _).
  split; [exact (proj1 (Hdone true Hrun)) | exact Hsuccess].
Defined.

Lemma out_of_range_value_is_warned_witness :
  In (ValueNotInRange "FoSJZXMf" (VFloat (Finite (3 # 2))))
     (output (classification_part String.leb out_of_range_tree))
  /\ ~ In ClassificationValid
         (output (classification_part String.leb out_of_range_tree)).
Proof.
  assert (Hrun : outcome (classification_part String.leb out_of_range_tree)
                 = Ok true) by (vm_compute; reflexivity).
  pose proof (out_of_range_value_is_warned String.leb out_of_range_tree _
                out_of_range_predictions "FoSJZXMf" (VFloat (Finite (3 # 2)))
                (NFloat (Finite (3 # 2))) eq_refl eq_refl eq_refl eq_refl
                eq_refl) as (Hdone & Hsuccess & _).
  split; [exact (proj1 (Hdone true Hrun)) | exact Hsuccess].
Defined.

Lemma classification_check_raises_in_two_ways_witness :
  check_classification String.leb array_json_tree = ([], Err AttributeError).
Proof.
  apply (proj2 (proj2 (classification_check_raises_in_two_ways String.leb
                         array_json_tree _ (VList []) eq_refl eq_refl))).
  intros d. discriminate.
Defined.

Lemma nan_predictions_quiet :
  Forall (fun kv => quiet_score (snd kv)) nan_predictions.
Proof.
  constructor; [right; reflexivity |].
  apply Forall_forall. intros kv Hin. left.
  assert (Hall : valid_scores good_predictions) by exact good_predictions_valid.
  unfold valid_scores in Hall. rewrite Forall_forall in Hall. apply Hall.
  right. exact Hin.
Qed.

Lemma nan_passes_type_and_range_checks_witness :
  check_keys_and_values String.leb nan_predictions false = ([], Ok false)
  /\ auc_guard nan_predictions false = true.
Proof.
  exact (nan_passes_type_and_range_checks String.leb nan_predictions
           (Permutation_refl _) nan_predictions_quiet).
Defined.

Lemma nan_score_fails_auc_witness :
  classification_part String.leb nan_tree = ([AUCError ValueError], Ok true).
Proof.
  exact (nan_score_fails_auc String.leb nan_tree _ nan_predictions "FoSJZXMf"
           eq_refl eq_refl (Permutation_refl _) nan_predictions_quiet eq_refl).
Defined.

Lemma auc_error_stands_alone_witness :
  check_classification String.leb nan_tree = ([AUCError ValueError], Ok true).
Proof.
  apply (auc_error_stands_alone String.leb nan_tree ValueError).
  vm_compute. left. reflexivity.
Defined.

Lemma overall_success_means_no_finding_witness :
  check_extracted String.leb (Ok no_patch_manifest) no_patch_tree
  = ([ClassificationValid; SegmentationValid; SubmissionValid], Ok tt).
Proof.
  apply (overall_success_means_no_finding String.leb (Ok no_patch_manifest)
           no_patch_tree).
  vm_compute. right. right. left. reflexivity.
Defined.

Lemma one_announcement_per_archive_witness :
  filter is_checking
    (output (main String.leb (Ok one_patch_manifest) mixed_disk
               ["none.zip"; "bad.zip"; "a.zip"]))
  = [Checking "none.zip"; Checking "bad.zip"; Checking "a.zip"].
Proof.
  exact (proj2 (one_announcement_per_archive String.leb
                  (Ok one_patch_manifest) mixed_disk
                  ["none.zip"; "bad.zip"; "a.zip"]) eq_refl).
Defined.

Lemma first_case : 1 <= 1 <= 6.
Proof. lia. Qed.

Lemma missing_case_folder_blocks_success_witness :
  ~ In SegmentationValid
      (output (segmentation_part String.leb (Ok one_patch_manifest)
                 extra_key_tree)).
Proof.
  exact (proj2 (missing_case_folder_blocks_success String.leb
                  one_patch_manifest extra_key_tree 1 first_case eq_refl)).
Defined.

Lemma wrong_dtype_or_shape_is_error_witness :
  In (PatchDtype "p1.png" uint16)
     (output (check_segmentation String.leb (Ok one_patch_manifest)
                odd_patch_tree))
  /\ In (PatchShape "p1.png" [2; 2])
        (output (check_segmentation String.leb (Ok one_patch_manifest)
                   odd_patch_tree)).
Proof.
  destruct (wrong_dtype_or_shape_is_error String.leb one_patch_manifest
              odd_patch_tree 1 _ "p1.png" (png_file odd_patch_array)
              odd_patch_array true eq_refl first_case eq_refl
              (or_introl eq_refl) eq_refl) as [Hdtype Hshape].
  split.
  - apply Hdtype. discriminate.
  - apply Hshape. discriminate.
Defined.

Lemma zero_is_no_label : exists v, In v [0; 1; 11; 11] /\ ~ 1 <= v <= 10.
Proof. exists 0. split; [left; reflexivity | lia]. Qed.

Lemma unexpected_classes_warning_lists_values_witness :
  exists listed,
    In (PatchClasses "p1.png" listed)
       (output (check_segmentation String.leb (Ok one_patch_manifest)
                  odd_patch_tree))
    /\ NoDup listed
    /\ (forall v, In v listed <-> In v [0; 1; 11; 11] /\ ~ 1 <= v <= 10).
Proof.
  destruct (unexpected_classes_warning_lists_values String.leb
              one_patch_manifest odd_patch_tree 1 _ "p1.png"
              (png_file odd_patch_array) odd_patch_array true eq_refl
              first_case eq_refl (or_introl eq_refl) eq_refl zero_is_no_label)
    as (listed & Hin & Hnodup & Hspec & _).
  exists listed. split; [exact Hin | split; [exact Hnodup | exact Hspec]].
Defined.

Lemma undecodable_patch_is_error_witness :
  In (PatchInvalid "notes.png")
     (output (check_segmentation String.leb (Ok one_patch_manifest)
                odd_patch_tree)).
Proof.
  exact (proj1 (undecodable_patch_is_error String.leb one_patch_manifest
                  odd_patch_tree 1 _ "notes.png" (json_file VNone)
                  UnidentifiedImageError true eq_refl first_case eq_refl
                  (or_intror (or_introl eq_refl)) eq_refl eq_refl)).
Defined.

Lemma uncaught_patch_exception_ends_run_witness :
  exists e',
    main String.leb (Ok one_patch_manifest) unreadable_patch_disk
      ["a.zip"; "b.zip"]
    = (Checking "a.zip"
         :: output (check_extracted String.leb (Ok one_patch_manifest)
                      unreadable_patch_tree),
       Err e').
Proof.
  exact (uncaught_patch_exception_ends_run String.leb one_patch_manifest
           unreadable_patch_disk "a.zip" ["b.zip"] unreadable_patch_tree 1 _
           "p1.png" (mkfile (Err OSError) (Err OSError)) OSError
           eq_refl first_case eq_refl (or_introl eq_refl) eq_refl eq_refl).
Defined.

Lemma manifest_without_case_ends_run_witness :
  exists e',
    main String.leb (Ok []) extra_patch_disk ["a.zip"; "b.zip"]
    = (Checking "a.zip"
         :: output (check_extracted String.leb (Ok []) extra_patch_tree),
       Err e').
Proof.
  exact (manifest_without_case_ends_run String.leb [] extra_patch_disk
           "a.zip" ["b.zip"] extra_patch_tree 1 _ eq_refl first_case eq_refl
           eq_refl).
Defined.

Lemma missing_patches_error_lists_missing_witness :
  exists listed,
    In (MissingPatches "wns_case_01" listed)
       (output (check_case_folder String.leb "wns_case_01" (Some (Dir []))
                  ["p1.png"] false))
    /\ NoDup listed
    /\ (forall name,
          In name listed
          <-> In name ["p1.png"]
              /\ ~ In name (map fst (glob_png (Some (Dir []))))).
Proof.
  apply (missing_patches_error_lists_missing String.leb "wns_case_01"
           (Some (Dir [])) ["p1.png"] false).
  exists "p1.png". split; [left; reflexivity | intros []].
Defined.
